(** * News analyzer: the RSS fetch / cache / analyze pipeline

    A shallow embedding of the Express server of the repository (the
    file that declares [RSS_FEEDS], [rawArticles], [analysisCache],
    [fetchWithRetry], [fetchAllFeeds], [analyzeSentiment],
    [analyzeArticles] and the handler of [GET /api/articles/:category]),
    followed by the properties of that pipeline.

    Conventions of the embedding.
    - Times are integers, the milliseconds since the epoch that
      [Date.now()] returns.  An article's [timestamp] is the ISO string of
      a valid date, which [new Date(timestamp)] reads back to the same
      number of milliseconds, so it is kept as that number.
    - JavaScript objects with string keys and [Map]s are insertion-ordered
      maps: association lists whose keys are distinct, updated in place.
    - The outside world (RSS servers, the LLM, the clock) is an explicit
      argument of every function that consults it.
    - A JavaScript exception is the [Err] case of [result].
    - A string is held as its UTF-8 text.
    - In a run ([reachable]) one fetch cycle or one request handler is a
      single step; what a request finds in [rawArticles] in the middle of
      a fetch cycle is described by [observed]. *)

From Stdlib Require Import ZArith QArith Bool List String Ascii Lia Lqa DecimalString.
From Stdlib Require Import Permutation Sorted.
Import ListNotations.

Open Scope string_scope.
Open Scope list_scope.
Open Scope Z_scope.

Set Implicit Arguments.
Set Warnings "-register-all".

(* ================================================================== *)
(** * Part I: the embedding *)
(* ================================================================== *)

(** ** Exceptions *)

Record error := Error { message : string }.

Inductive result (A : Type) : Type :=
| Ok (a : A)
| Err (e : error).
Arguments Ok {A} a.
Arguments Err {A} e.

Definition bind {A B} (r : result A) (k : A -> result B) : result B :=
  match r with
  | Ok a => k a
  | Err e => Err e
  end.

Notation "x <- r ;; k" := (bind r (fun x => k))
  (at level 61, r at next level, right associativity).

(** ** JavaScript numbers

    A number is NaN, an infinity or a finite value.  Finite values are
    doubles; they are embedded by their exact rational value.  The code
    only compares numbers and looks at the sign of a difference, and on
    doubles both agree with the exact rationals. *)

Inductive jsnum :=
| NaN
| NegInf
| Fin (q : Q)
| PosInf.

Definition Qlt_bool (x y : Q) : bool := negb (Qle_bool y x).

(** [x < y]; false as soon as one side is NaN. *)
Definition num_lt (x y : jsnum) : bool :=
  match x, y with
  | NaN, _ | _, NaN => false
  | NegInf, NegInf => false
  | NegInf, _ => true
  | Fin _, NegInf => false
  | Fin a, Fin b => Qlt_bool a b
  | Fin _, PosInf => true
  | PosInf, _ => false
  end.

(** [x <= y]; false as soon as one side is NaN. *)
Definition num_le (x y : jsnum) : bool :=
  match x, y with
  | NaN, _ | _, NaN => false
  | NegInf, _ => true
  | Fin _, NegInf => false
  | Fin a, Fin b => Qle_bool a b
  | Fin _, PosInf => true
  | PosInf, PosInf => true
  | PosInf, _ => false
  end.

(** [x - y]. *)
Definition num_sub (x y : jsnum) : jsnum :=
  match x, y with
  | NaN, _ | _, NaN => NaN
  | Fin a, Fin b => Fin (a - b)
  | PosInf, PosInf | NegInf, NegInf => NaN
  | PosInf, _ | _, NegInf => PosInf
  | NegInf, _ | _, PosInf => NegInf
  end.

Definition num_of_Z (z : Z) : jsnum := Fin (inject_Z z).

(** ** JavaScript values: what [JSON.parse] builds, and [undefined] *)

Inductive jsval :=
| JUndefined
| JNull
| JBool (b : bool)
| JNum (n : jsnum)
| JStr (s : string)
| JArr (items : list jsval)
| JObj (fields : list (string * jsval)).

(** ** Insertion-ordered maps with string keys

    [set] is [obj[k] = v] and [Map.prototype.set]: the value of a key
    that is present is replaced where it stands, a new key goes to the
    end.  [keys] is [Object.keys], [values] is [Map.prototype.values]. *)

Section OrderedMap.
Context {V : Type}.

Fixpoint get (k : string) (m : list (string * V)) : option V :=
  match m with
  | [] => None
  | (k', v) :: rest => if String.eqb k k' then Some v else get k rest
  end.

Fixpoint set (k : string) (v : V) (m : list (string * V)) : list (string * V) :=
  match m with
  | [] => [(k, v)]
  | (k', v') :: rest =>
      if String.eqb k k' then (k', v) :: rest else (k', v') :: set k v rest
  end.

Definition keys (m : list (string * V)) : list string := map fst m.
Definition values (m : list (string * V)) : list V := map snd m.

(** [new Map(pairs)]: the pairs are set one after the other. *)
Definition Map_of (pairs : list (string * V)) : list (string * V) :=
  fold_left (fun m kv => set (fst kv) (snd kv) m) pairs [].
End OrderedMap.

(** The own property of a parsed JSON object: [JSON.parse] keeps the
    last of several members with one name. *)
Definition own_property (k : string) (fields : list (string * jsval)) : option jsval :=
  get k (Map_of fields).

(** ** Coercion to a number

    [a > b], [a >= b] and [a - b] with a number on one side read the
    other side through ToPrimitive (hint number) and ToNumber.  The
    reading of a string's text and of an array (which goes through its
    joined text) are built-ins of the engine, the two members of
    [Builtins].  A parsed object has no callable own method: with an own
    member [toString] neither [valueOf] nor [toString] yields a primitive
    and the coercion throws a TypeError; without it
    [Object.prototype.toString] gives the text [[object Object]], which
    reads as NaN. *)

Class Builtins := {
  StringToNumber : string -> jsnum;
  ArrayToNumber : list jsval -> result jsnum
}.

Section Coercion.
Context {B : Builtins}.

Definition ToNumber (v : jsval) : result jsnum :=
  match v with
  | JUndefined => Ok NaN
  | JNull => Ok (Fin 0)
  | JBool true => Ok (Fin 1)
  | JBool false => Ok (Fin 0)
  | JNum n => Ok n
  | JStr s => Ok (StringToNumber s)
  | JArr items => ArrayToNumber items
  | JObj fields =>
      match own_property "toString" fields with
      | Some _ => Err (Error "Cannot convert object to primitive value")
      | None => Ok NaN
      end
  end.

(** [v > c], [v < c], [v >= c], [v <= c] for a numeric literal [c]. *)
Definition js_gt (v : jsval) (c : jsnum) : result bool :=
  n <- ToNumber v ;; Ok (num_lt c n).
Definition js_lt (v : jsval) (c : jsnum) : result bool :=
  n <- ToNumber v ;; Ok (num_lt n c).
Definition js_ge (v : jsval) (c : jsnum) : result bool :=
  n <- ToNumber v ;; Ok (num_le c n).
Definition js_le (v : jsval) (c : jsnum) : result bool :=
  n <- ToNumber v ;; Ok (num_le n c).

(** [v - w]; a throwing operand makes the difference throw. *)
Definition js_sub (v w : jsval) : result jsnum :=
  x <- ToNumber v ;; y <- ToNumber w ;; Ok (num_sub x y).
End Coercion.

(** ** Arrays: [filter], [sort], [slice] *)

(** [Array.prototype.filter] with a predicate that may throw: the
    elements are tested from left to right and the first exception ends
    the call. *)
Fixpoint Array_filter {A} (p : A -> result bool) (l : list A) : result (list A) :=
  match l with
  | [] => Ok []
  | a :: rest =>
      b <- p a ;;
      kept <- Array_filter p rest ;;
      Ok (if b then a :: kept else kept)
  end.

(** [Array.prototype.sort(cmp)] is a stable sort: an element goes behind
    the elements to its right for which [cmp] says it is greater
    ([cmp(a, b) > 0]); a result that is zero, negative or NaN leaves the two
    in their order.  For a comparator that orders its inputs consistently
    the result of a stable sort is unique, so the insertion sort below
    returns the array the engine returns. *)
Section Sort.
Context {A : Type}.
Variable cmp : A -> A -> jsnum.

Definition sorts_after (a b : A) : bool := num_lt (Fin 0) (cmp a b).

Fixpoint sort_insert (a : A) (l : list A) : list A :=
  match l with
  | [] => [a]
  | b :: rest => if sorts_after a b then b :: sort_insert a rest else a :: b :: rest
  end.

Definition Array_sort (l : list A) : list A := fold_right sort_insert [] l.
End Sort.

(** [l.slice(0, n)]. *)
Definition slice0 {A} (n : nat) (l : list A) : list A := firstn n l.

(** ** Strings: [toLowerCase] and [split]

    [toLowerCase] maps the letters A-Z to a-z and leaves every other
    byte alone, which is what it does on the ASCII text of a route
    parameter. *)

Definition lower_ascii (c : ascii) : ascii :=
  let n := nat_of_ascii c in
  if ((65 <=? n) && (n <=? 90))%nat then ascii_of_nat (n + 32) else c.

Fixpoint toLowerCase (s : string) : string :=
  match s with
  | EmptyString => EmptyString
  | String c rest => String (lower_ascii c) (toLowerCase rest)
  end.

(** [s.split(sep)] for a separator of one character. *)
Fixpoint split (sep : ascii) (s : string) : list string :=
  match s with
  | EmptyString => [EmptyString]
  | String c rest =>
      match split sep rest with
      | [] => [EmptyString]
      | seg :: segs =>
          if Ascii.eqb c sep then EmptyString :: seg :: segs
          else String c seg :: segs
      end
  end.

(** A string is truthy when it is not empty. *)
Definition truthy (s : string) : bool :=
  match s with
  | EmptyString => false
  | _ => true
  end.

(** [x || y] where [x] is a string or [undefined]. *)
Definition or_else (x : option string) (y : option string) : option string :=
  match x with
  | Some s => if truthy s then Some s else y
  | None => y
  end.

(** ** Data model of the feed fetcher *)

Module Article.
Record t := Build {
  category : string;
  title : string;
  content : string;
  url : string;
  source : string;
  timestamp : Z
}.
End Article.

(** The date an RSS item carries, as [new Date(...)] reads it. *)
Inductive js_date :=
| InvalidDate
| ValidDate (ms : Z).

Module Item.
(** An item of a parsed feed, with the members the fetcher reads.
    [title] and [link] are strings.  [pubDate] is the date that
    [item.pubDate || item.isoDate] denotes, [None] when the item has
    neither. *)
Record t := Build {
  title : string;
  link : string;
  contentSnippet : option string;
  description : option string;
  content_encoded : option string;
  summary : option string;
  pubDate : option js_date
}.
End Item.

Module FeedData.
Record t := Build {
  title : option string;
  items : list Item.t
}.
End FeedData.

Module Feed.
Record t := Build {
  category : string;
  url : string
}.
End Feed.

Definition RSS_FEEDS : list Feed.t :=
  [ Feed.Build "breaking" "https://timesofindia.indiatimes.com/rssfeedstopstories.cms";
    Feed.Build "technology" "https://timesofindia.indiatimes.com/rssfeeds/66949542.cms";
    Feed.Build "business"
      "https://economictimes.indiatimes.com/prime/technology-and-startups/rssfeeds/63319172.cms";
    Feed.Build "science" "https://timesofindia.indiatimes.com/rssfeeds/-2128672765.cms";
    Feed.Build "health" "https://www.thehindu.com/sci-tech/health/feeder/default.rss";
    Feed.Build "breaking" "https://www.hindustantimes.com/feeds/rss/india/rssfeed.xml" ].

Module CategoryState.
Record t := Build {
  articles : list Article.t;
  isLoading : bool;
  lastError : option string
}.
End CategoryState.

(** The initial value of the global [rawArticles]. *)
Definition rawArticles0 : list (string * CategoryState.t) :=
  map (fun c => (c, CategoryState.Build [] false None))
      ["breaking"; "technology"; "business"; "science"; "health"].

(** ** The feed fetcher *)

(** What the RSS servers and the clock do during one fetch cycle:
    [parseURL url attempt] is the outcome of the [attempt]-th call of
    [parser.parseURL(url)] in the cycle, and [clock url i] is what
    [new Date()] reads when item [i] of that feed needs it. *)
Record FeedWorld := {
  parseURL : string -> nat -> result FeedData.t;
  clock : string -> nat -> Z
}.

(** The [for] loop of [fetchWithRetry], entered at [attempt] with
    [remaining] iterations to go.  A loop that ends without returning
    yields [undefined]. *)
Fixpoint retry_loop (parse : nat -> result FeedData.t) (attempt remaining : nat)
  : result (option FeedData.t) :=
  match remaining with
  | O => Ok None
  | S remaining' =>
      match parse attempt with
      | Ok feedData => Ok (Some feedData)
      | Err e =>
          match remaining' with
          | O => Err e
          | S _ => retry_loop parse (S attempt) remaining'
          end
      end
  end.

Definition fetchWithRetry (w : FeedWorld) (feed : Feed.t) (maxRetries : nat)
  : result (option FeedData.t) :=
  retry_loop (parseURL w (Feed.url feed)) 1 maxRetries.

(** [new Date(item.pubDate || item.isoDate || new Date()).toISOString()]:
    [toISOString] throws a RangeError on an invalid date. *)
Definition item_timestamp (now : Z) (item : Item.t) : result Z :=
  match Item.pubDate item with
  | None => Ok now
  | Some (ValidDate ms) => Ok ms
  | Some InvalidDate => Err (Error "Invalid time value")
  end.

Definition item_content (item : Item.t) : string :=
  match or_else (Item.contentSnippet item)
          (or_else (Item.description item)
             (or_else (Item.content_encoded item)
                (or_else (Item.summary item) (Some "")))) with
  | Some s => s
  | None => ""
  end.

(** [feedData.title || feed.url.split('/')[2]]. *)
Definition feed_source (feed : Feed.t) (feedData : FeedData.t) : string :=
  match or_else (FeedData.title feedData)
          (nth_error (split "/" (Feed.url feed)) 2) with
  | Some s => s
  | None => ""
  end.

Definition toArticle (w : FeedWorld) (feed : Feed.t) (feedData : FeedData.t)
    (i : nat) (item : Item.t) : result Article.t :=
  ts <- item_timestamp (clock w (Feed.url feed) i) item ;;
  Ok (Article.Build (Feed.category feed) (Item.title item) (item_content item)
                    (Item.link item) (feed_source feed feedData) ts).

(** [items.map(item => ...)], from item number [i] on. *)
Fixpoint map_items (f : nat -> Item.t -> result Article.t) (i : nat) (items : list Item.t)
  : result (list Article.t) :=
  match items with
  | [] => Ok []
  | item :: rest =>
      a <- f i item ;;
      others <- map_items f (S i) rest ;;
      Ok (a :: others)
  end.

(** The [try] block run for one feed. *)
Definition processFeed (w : FeedWorld) (feed : Feed.t) : result (list Article.t) :=
  fetched <- fetchWithRetry w feed 3 ;;
  match fetched with
  | None => Err (Error "Cannot read properties of undefined (reading 'items')")
  | Some feedData => map_items (toArticle w feed feedData) 0 (FeedData.items feedData)
  end.

(** The loop over the feeds of one category; the pair is
    [(allArticles, categorySuccess)]. *)
Fixpoint tryFeeds (w : FeedWorld) (feeds : list Feed.t)
    (allArticles : list Article.t) (categorySuccess : bool) : list Article.t * bool :=
  match feeds with
  | [] => (allArticles, categorySuccess)
  | feed :: rest =>
      match processFeed w feed with
      | Ok newArticles => tryFeeds w rest (allArticles ++ newArticles) true
      | Err _ => tryFeeds w rest allArticles categorySuccess
      end
  end.

(** [Array.from(new Map(combined.map(a => [a.url, a])).values())]. *)
Definition uniqueArticles (combinedArticles : list Article.t) : list Article.t :=
  values (Map_of (map (fun article => (Article.url article, article)) combinedArticles)).

(** [(a, b) => new Date(b.timestamp) - new Date(a.timestamp)]. *)
Definition newest_first (a b : Article.t) : jsnum :=
  num_of_Z (Article.timestamp b - Article.timestamp a).

Definition MAX_RETAINED : nat := 10.

(** What is stored as the category's articles after a successful cycle. *)
Definition retain (existingArticles allArticles : list Article.t) : list Article.t :=
  slice0 MAX_RETAINED
    (Array_sort newest_first (uniqueArticles (existingArticles ++ allArticles))).

Definition ALL_FAILED : string :=
  "Failed to fetch articles from any source for this category".

(** The body of the loop over categories, on the category's state. *)
Definition fetchCategory (w : FeedWorld) (feeds : list Feed.t) (cs : CategoryState.t)
  : CategoryState.t :=
  let started := CategoryState.Build (CategoryState.articles cs) true None in
  let '(allArticles, categorySuccess) := tryFeeds w feeds [] false in
  if categorySuccess then
    CategoryState.Build (retain (CategoryState.articles started) allArticles) false None
  else
    CategoryState.Build (CategoryState.articles started) false (Some ALL_FAILED).

(** [RSS_FEEDS.reduce(...)]: the feeds grouped by category, categories in
    the order of their first feed. *)
Definition group_feeds (feeds : list Feed.t) : list (string * list Feed.t) :=
  fold_left
    (fun acc feed =>
       match get (Feed.category feed) acc with
       | None => set (Feed.category feed) [feed] acc
       | Some fs => set (Feed.category feed) (fs ++ [feed]) acc
       end)
    feeds [].

Definition feedsByCategory : list (string * list Feed.t) := group_feeds RSS_FEEDS.

(** The loop over [Object.entries(feedsByCategory)].  A category that
    [rawArticles] does not hold makes [rawArticles[category].isLoading]
    throw, which ends the cycle with the state reached so far. *)
Fixpoint fetchCategories (w : FeedWorld) (entries : list (string * list Feed.t))
    (rawArticles : list (string * CategoryState.t)) : list (string * CategoryState.t) :=
  match entries with
  | [] => rawArticles
  | (category, feeds) :: rest =>
      match get category rawArticles with
      | None => rawArticles
      | Some cs => fetchCategories w rest (set category (fetchCategory w feeds cs) rawArticles)
      end
  end.

Definition fetchAllFeeds (w : FeedWorld) (rawArticles : list (string * CategoryState.t))
  : list (string * CategoryState.t) :=
  fetchCategories w feedsByCategory rawArticles.

(** ** The sentiment annotator *)

Module Analyzed.
(** What [analyzeSentiment] returns.  The annotation fields hold
    whatever the parsed reply held under the respective names. *)
Record t := Build {
  title : string;
  url : string;
  source : string;
  timestamp : Z;
  summary : jsval;
  overall_sentiment : jsval;
  sentiment_score : jsval;
  bias_level : jsval;
  manipulative_score : jsval;
  positive : jsval;
  negative : jsval
}.
End Analyzed.

(** How one call of the LLM for one article ends:
    [groq.chat.completions.create] rejects; the reply has no
    [choices[0].message]; the content is not JSON; or the content parses
    to a value. *)
Inductive completion :=
| Rejected (e : error)
| NoChoices
| NotJSON (content : string)
| Parsed (analysis : jsval).

(** [v.name], for the seven names the annotator reads ([summary],
    [sentiment], [sentiment_score], [bias_level], [manipulative_score],
    [mood], [bias]); no built-in prototype defines any of them, so they
    are own members of a parsed object or [undefined]. *)
Definition member (v : jsval) (name : string) : result jsval :=
  match v with
  | JUndefined => Err (Error ("Cannot read properties of undefined (reading '" ++ name ++ "')"))
  | JNull => Err (Error ("Cannot read properties of null (reading '" ++ name ++ "')"))
  | JObj fields =>
      match own_property name fields with
      | Some x => Ok x
      | None => Ok JUndefined
      end
  | _ => Ok JUndefined
  end.

(** The [try] block of [analyzeSentiment]. *)
Definition annotate (article : Article.t) (reply : completion) : result Analyzed.t :=
  analysis <- match reply with
              | Rejected e => Err e
              | NoChoices => Err (Error "Cannot read properties of undefined (reading 'message')")
              | NotJSON _ => Err (Error "Unexpected token in JSON")
              | Parsed v => Ok v
              end ;;
  summary <- member analysis "summary" ;;
  sentiment <- member analysis "sentiment" ;;
  sentiment_score <- member analysis "sentiment_score" ;;
  bias_level <- member analysis "bias_level" ;;
  manipulative_score <- member analysis "manipulative_score" ;;
  mood <- member analysis "mood" ;;
  bias <- member analysis "bias" ;;
  Ok (Analyzed.Build (Article.title article) (Article.url article)
        (Article.source article) (Article.timestamp article)
        summary sentiment sentiment_score bias_level manipulative_score mood bias).

Definition UNAVAILABLE : string := "Analysis temporarily unavailable".
Definition UNKNOWN_MOOD : string := "â“".

(** The object the [catch] block returns. *)
Definition fallback (article : Article.t) : Analyzed.t :=
  Analyzed.Build (Article.title article) (Article.url article)
    (Article.source article) (Article.timestamp article)
    (JStr UNAVAILABLE) (JStr "neutral") (JNum (Fin 0)) (JNum (Fin 0)) (JNum (Fin 0))
    (JStr UNKNOWN_MOOD) (JStr UNAVAILABLE).

Definition analyzeSentiment (article : Article.t) (reply : completion) : Analyzed.t :=
  match annotate article reply with
  | Ok analyzed => analyzed
  | Err _ => fallback article
  end.

(** ** The analysis of a category *)

Module Analysis.
Record t := Build {
  positive : list Analyzed.t;
  negative : list Analyzed.t;
  neutral : list Analyzed.t;
  suggestions : list string
}.
End Analysis.

(** The literals [0.3] and [-0.3].  The double that [0.3] denotes lies
    just below 3/10 and no double lies between the two, so a double
    compares with the literal as it compares with 3/10 (and likewise for
    [-0.3]). *)
Definition THRESHOLD : jsnum := Fin (3 # 10).
Definition NEG_THRESHOLD : jsnum := Fin (- 3 # 10).
Definition BUCKET_SIZE : nat := 5.

(** The names every object inherits from [Object.prototype]. *)
Definition Object_prototype : list string :=
  [ "constructor"; "__defineGetter__"; "__defineSetter__"; "hasOwnProperty";
    "__lookupGetter__"; "__lookupSetter__"; "isPrototypeOf"; "propertyIsEnumerable";
    "toString"; "valueOf"; "__proto__"; "toLocaleString" ].

Section CategoryAnalysis.
Context {B : Builtins}.

(** The number a comparator reads from a score.  The comparators run on
    elements that passed a filter, whose scores were coerced there
    without an exception. *)
Definition score (a : Analyzed.t) : jsnum :=
  match ToNumber (Analyzed.sentiment_score a) with
  | Ok n => n
  | Err _ => NaN
  end.

(** [a => a.sentiment_score > 0.3] *)
Definition is_positive (a : Analyzed.t) : result bool :=
  js_gt (Analyzed.sentiment_score a) THRESHOLD.

(** [a => a.sentiment_score < -0.3] *)
Definition is_negative (a : Analyzed.t) : result bool :=
  js_lt (Analyzed.sentiment_score a) NEG_THRESHOLD.

(** [a => a.sentiment_score >= -0.3 && a.sentiment_score <= 0.3] *)
Definition is_neutral (a : Analyzed.t) : result bool :=
  lower <- js_ge (Analyzed.sentiment_score a) NEG_THRESHOLD ;;
  if lower then js_le (Analyzed.sentiment_score a) THRESHOLD
  else Ok false.

(** [(a, b) => b.sentiment_score - a.sentiment_score] *)
Definition descending (a b : Analyzed.t) : jsnum := num_sub (score b) (score a).

(** [(a, b) => a.sentiment_score - b.sentiment_score] *)
Definition ascending (a b : Analyzed.t) : jsnum := num_sub (score a) (score b).

(** The three buckets made from [analyzedArticles]. *)
Definition buckets (analyzedArticles : list Analyzed.t) : result Analysis.t :=
  pos <- Array_filter is_positive analyzedArticles ;;
  neg <- Array_filter is_negative analyzedArticles ;;
  neu <- Array_filter is_neutral analyzedArticles ;;
  Ok (Analysis.Build
        (slice0 BUCKET_SIZE (Array_sort descending pos))
        (slice0 BUCKET_SIZE (Array_sort ascending neg))
        (slice0 BUCKET_SIZE neu)
        []).

(** [analyzeArticles(category)], given the LLM's reply for each article.
    [analyzeSentiment] returns an object in every case, so every article
    is pushed to [analyzedArticles]; that object has no member
    [recommendations], so no suggestion is ever collected.  Under a name
    that [rawArticles] only inherits, [rawArticles[category]] is a value
    without [articles], which is answered like an empty list; under any
    other name it does not hold, reading [articles] throws. *)
Definition analyzeArticles (llm : Article.t -> completion)
    (rawArticles : list (string * CategoryState.t)) (category : string)
  : result Analysis.t :=
  match get category rawArticles with
  | None =>
      if existsb (String.eqb category) Object_prototype then
        Ok (Analysis.Build [] [] [] ["No articles available for analysis."])
      else Err (Error "Cannot read properties of undefined (reading 'articles')")
  | Some cs =>
      match CategoryState.articles cs with
      | [] => Ok (Analysis.Build [] [] [] ["No articles available for analysis."])
      | articles =>
          buckets (map (fun article => analyzeSentiment article (llm article)) articles)
      end
  end.
End CategoryAnalysis.

(** ** The analysis cache *)

Module Summary.
Record t := Build {
  total_articles : nat;
  analyzed_articles : nat;
  positive_count : nat;
  negative_count : nat;
  neutral_count : nat
}.
End Summary.

Module Buckets.
Record t := Build {
  positive : list Analyzed.t;
  negative : list Analyzed.t;
  neutral : list Analyzed.t
}.
End Buckets.

Module Data.
(** The [data] of a cache entry, which is also the body of a 200
    response up to its [cache_status]. *)
Record t := Build {
  category : string;
  summary : Summary.t;
  articles : Buckets.t;
  reader_suggestions : list string;
  last_updated : Z
}.
End Data.

(** [analysisStartTime]: not a member of the initial entries, then a
      date or [null]. *)
Inductive start_time :=
  | StartAbsent
  | StartNull
  | StartAt (ms : Z).

Module CacheEntry.
Record t := Build {
  timestamp : Z;
  data : option Data.t;
  isAnalyzing : bool;
  analysisStartTime : start_time
}.
End CacheEntry.

(** The initial value of the global [analysisCache]. *)
Definition analysisCache0 : list (string * CacheEntry.t) :=
  map (fun c => (c, CacheEntry.Build 0 None false StartAbsent))
      ["breaking"; "technology"; "business"; "science"; "health"].

Definition CACHE_DURATION : Z := 5 * 60 * 1000.

(** ** The server state and the handler of [GET /api/articles/:category] *)

Record state := State {
  rawArticles : list (string * CategoryState.t);
  analysisCache : list (string * CacheEntry.t)
}.

Definition initial_state : state := State rawArticles0 analysisCache0.

(** [k in obj] for an object literal: own and inherited names count. *)
Definition js_in {V} (k : string) (obj : list (string * V)) : bool :=
  match get k obj with
  | Some _ => true
  | None => existsb (String.eqb k) Object_prototype
  end.

Inductive response :=
| CategoryNotFound (available_categories : list string)
| Loading (category : string)
| FetchError (message : string) (category : string)
| NoArticles (category : string)
| FromCache (data : Data.t) (age expires_in : Z)
| Analyzing (category : string) (started_at : start_time)
| JustAnalyzed (data : Data.t)
| InternalError (message : string) (category : string).

Definition status (r : response) : Z :=
  match r with
  | CategoryNotFound _ => 404
  | Loading _ => 202
  | FetchError _ _ => 500
  | NoArticles _ => 404
  | FromCache _ _ _ => 200
  | Analyzing _ _ => 202
  | JustAnalyzed _ => 200
  | InternalError _ _ => 500
  end.

(** The body of a 200 response and its [cache_status.from_cache]. *)
Definition body (r : response) : option (Data.t * bool) :=
  match r with
  | FromCache d _ _ => Some (d, true)
  | JustAnalyzed d => Some (d, false)
  | _ => None
  end.

(** What the clock and the LLM do during one request: [now] is
    [Date.now()] at the cache check, [started] the [new Date()] stored as
    [analysisStartTime], [stored] the [Date.now()] stored as the entry's
    [timestamp], [updated] the [new Date()] stored as [last_updated]. *)
Record RequestWorld := {
  now : Z;
  started : Z;
  stored : Z;
  updated : Z;
  llm : Article.t -> completion
}.

(** An entry read through [cache?.field]: the fields of a missing entry
    are [undefined], which reads like the values below in every use the
    handler makes of them. *)
Definition no_entry : CacheEntry.t := CacheEntry.Build 0 None false StartAbsent.

Definition entry_of (category : string) (cache : list (string * CacheEntry.t)) : CacheEntry.t :=
  match get category cache with
  | Some e => e
  | None => no_entry
  end.

Definition make_data (category : string) (total : nat) (analysis : Analysis.t)
    (updated : Z) : Data.t :=
  Data.Build category
    (Summary.Build total
       (List.length (Analysis.positive analysis) + List.length (Analysis.negative analysis)
        + List.length (Analysis.neutral analysis))%nat
       (List.length (Analysis.positive analysis))
       (List.length (Analysis.negative analysis))
       (List.length (Analysis.neutral analysis)))
    (Buckets.Build (Analysis.positive analysis) (Analysis.negative analysis)
       (Analysis.neutral analysis))
    (Analysis.suggestions analysis)
    updated.

Section Handler.
Context {B : Builtins}.

(** The part of the [try] block from "Starting fresh analysis" on.  The
    state returned with an exception is the state the [catch] block
    finds. *)
Definition fresh_analysis (w : RequestWorld) (category : string) (cs : CategoryState.t)
    (st : state) : result response * state :=
  let cache := entry_of category (analysisCache st) in
  let marked :=
    State (rawArticles st)
      (set category
         (CacheEntry.Build (CacheEntry.timestamp cache) (CacheEntry.data cache)
            true (StartAt (started w)))
         (analysisCache st)) in
  match analyzeArticles (llm w) (rawArticles marked) category with
  | Err e => (Err e, marked)
  | Ok analysis =>
      let data :=
        make_data category (List.length (CategoryState.articles cs)) analysis (updated w) in
      (Ok (JustAnalyzed data),
       State (rawArticles marked)
         (set category (CacheEntry.Build (stored w) (Some data) false StartNull)
            (analysisCache marked)))
  end.

(** [cache?.data && cacheAge < CACHE_DURATION] *)
Definition fresh_data (cache : CacheEntry.t) (cacheAge : Z) : option Data.t :=
  match CacheEntry.data cache with
  | Some data => if cacheAge <? CACHE_DURATION then Some data else None
  | None => None
  end.

(** The [try] block from "Check cache and analysis status" on. *)
Definition serve (w : RequestWorld) (category : string) (cs : CategoryState.t)
    (st : state) : result response * state :=
  let cache := entry_of category (analysisCache st) in
  let cacheAge := now w - CacheEntry.timestamp cache in
  match fresh_data cache cacheAge with
  | Some data =>
      (Ok (FromCache data (cacheAge / 1000) ((CACHE_DURATION - cacheAge) / 1000)), st)
  | None =>
      if CacheEntry.isAnalyzing cache then
        (Ok (Analyzing category (CacheEntry.analysisStartTime cache)), st)
      else fresh_analysis w category cs st
  end.

(** [if (rawArticles[category].lastError)]: the stored message, when
    there is one and it is truthy. *)
Definition stored_error (cs : CategoryState.t) : option string :=
  match CategoryState.lastError cs with
  | Some msg => if truthy msg then Some msg else None
  | None => None
  end.

(** The [try] block.  A name that [rawArticles] only inherits passes the
    [in] test; the value read under it has no [isLoading], [lastError] or
    [articles]. *)
Definition try_block (w : RequestWorld) (category : string) (st : state)
  : result response * state :=
  if negb (js_in category (rawArticles st)) then
    (Ok (CategoryNotFound (keys (rawArticles st))), st)
  else
    match get category (rawArticles st) with
    | None => (Ok (NoArticles category), st)
    | Some cs =>
        if CategoryState.isLoading cs then (Ok (Loading category), st)
        else
          match stored_error cs with
          | Some msg => (Ok (FetchError msg category), st)
          | None =>
              match CategoryState.articles cs with
              | [] => (Ok (NoArticles category), st)
              | _ :: _ => serve w category cs st
              end
          end
    end.

(** The [catch] block: [isAnalyzing] and [analysisStartTime] of the
    category's entry are reset. *)
Definition clear_flags (category : string) (st : state) : state :=
  match get category (analysisCache st) with
  | Some e =>
      State (rawArticles st)
        (set category
           (CacheEntry.Build (CacheEntry.timestamp e) (CacheEntry.data e) false StartNull)
           (analysisCache st))
  | None => st
  end.

(** The handler: the route parameter is lowercased, the [try] block
    runs, and an exception is answered by the [catch] block.  The wait for
    the initial load at the head of the [try] block only delays the
    request and is left out. *)
Definition handler (w : RequestWorld) (param : string) (st : state) : response * state :=
  let category := toLowerCase param in
  match try_block w category st with
  | (Ok r, st') => (r, st')
  | (Err e, st') => (InternalError (message e) category, clear_flags category st')
  end.

(** ** Runs of the server

    The server starts in [initial_state]; then fetch cycles and requests
    follow one another in any order, with any behaviour of the outside
    world.  A cycle and a request are each one step: [reachable] holds of
    the states between them, in which no category is loading and no
    analysis is in progress. *)
Inductive reachable : state -> Prop :=
| reach_initial : reachable initial_state
| reach_fetch (w : FeedWorld) (st : state) :
    reachable st ->
    reachable (State (fetchAllFeeds w (rawArticles st)) (analysisCache st))
| reach_request (w : RequestWorld) (param : string) (st : state) :
    reachable st ->
    reachable (snd (handler w param st)).
End Handler.

(** ** The store inside a fetch cycle

    [fetchAllFeeds] waits for the feeds of one category after the other,
    and requests are served while it waits.  [observed] holds of every
    value of [rawArticles] that a request can find: the initial one; one
    in which a cycle has begun a category, [isLoading] set and [lastError]
    reset; and one in which a cycle has finished a category, [w] being what
    the feeds of the category did meanwhile.  The steps follow one another
    in any order, which covers cycles that overlap.  A request does not
    write [rawArticles]. *)
Inductive observed : list (string * CategoryState.t) -> Prop :=
| observed_initial : observed rawArticles0
| observed_begin (rawArticles : list (string * CategoryState.t)) (category : string)
    (feeds : list Feed.t) (cs : CategoryState.t) :
    observed rawArticles ->
    In (category, feeds) feedsByCategory ->
    get category rawArticles = Some cs ->
    observed (set category (CategoryState.Build (CategoryState.articles cs) true None)
                rawArticles)
| observed_end (w : FeedWorld) (rawArticles : list (string * CategoryState.t))
    (category : string) (feeds : list Feed.t) (cs : CategoryState.t) :
    observed rawArticles ->
    In (category, feeds) feedsByCategory ->
    get category rawArticles = Some cs ->
    observed (set category (fetchCategory w feeds cs) rawArticles).

(** ** Vocabulary of the properties *)

(** The entry of [l] seen last among those with url [u]. *)
Definition last_seen (u : string) (l : list Article.t) : option Article.t :=
  find (fun a => String.eqb u (Article.url a)) (rev l).

(** [a] is at least as recent as [b]. *)
Definition not_older (a b : Article.t) : Prop :=
  Article.timestamp b <= Article.timestamp a.

(** The retention invariant of one category and of [rawArticles]. *)
Definition retained_ok (cs : CategoryState.t) : Prop :=
  (List.length (CategoryState.articles cs) <= MAX_RETAINED)%nat /\
  StronglySorted not_older (CategoryState.articles cs).

Definition all_retained_ok (rawArticles : list (string * CategoryState.t)) : Prop :=
  forall category cs, get category rawArticles = Some cs -> retained_ok cs.

(** A source succeeds in a cycle when its [try] block runs to the end. *)
Definition succeeds (w : FeedWorld) (feed : Feed.t) : Prop :=
  exists newArticles, processFeed w feed = Ok newArticles.

Definition fails (w : FeedWorld) (feed : Feed.t) : Prop :=
  exists e, processFeed w feed = Err e.

(** [rawArticles] holds the five categories. *)
Definition has_categories {V} (obj : list (string * V)) : Prop :=
  keys obj = ["breaking"; "technology"; "business"; "science"; "health"].

(** The member [name] of a parsed object as [analyzeSentiment] reads it. *)
Definition read_own (name : string) (fields : list (string * jsval)) : jsval :=
  match own_property name fields with
  | Some x => x
  | None => JUndefined
  end.

(** The annotation step fails before it has a parsed reply: the call is
    rejected, the reply is malformed, or its content is not JSON. *)
Definition call_fails (reply : completion) : Prop :=
  match reply with
  | Rejected _ | NoChoices | NotJSON _ => True
  | Parsed _ => False
  end.

Section ScoreVocabulary.
Context {B : Builtins}.


(** score > 0.3 *)
Definition above (a : Analyzed.t) : bool :=
  num_lt THRESHOLD (score a).

(** score < -0.3 *)
Definition below (a : Analyzed.t) : bool :=
  num_lt (score a) NEG_THRESHOLD.

(** -0.3 <= score <= 0.3 *)
Definition within (a : Analyzed.t) : bool :=
  num_le NEG_THRESHOLD (score a) && num_le (score a) THRESHOLD.

End ScoreVocabulary.

(** The counts of a response body agree with its lists, and no list
    exceeds the bucket size. *)
Definition counts_match (d : Data.t) : Prop :=
  Summary.positive_count (Data.summary d) = List.length (Buckets.positive (Data.articles d)) /\
  Summary.negative_count (Data.summary d) = List.length (Buckets.negative (Data.articles d)) /\
  Summary.neutral_count (Data.summary d) = List.length (Buckets.neutral (Data.articles d)) /\
  Summary.analyzed_articles (Data.summary d) =
    (Summary.positive_count (Data.summary d) + Summary.negative_count (Data.summary d)
     + Summary.neutral_count (Data.summary d))%nat.

Definition capped (d : Data.t) : Prop :=
  (List.length (Buckets.positive (Data.articles d)) <= BUCKET_SIZE)%nat /\
  (List.length (Buckets.negative (Data.articles d)) <= BUCKET_SIZE)%nat /\
  (List.length (Buckets.neutral (Data.articles d)) <= BUCKET_SIZE)%nat.

(** Two route parameters that differ only in letter case. *)
Inductive same_letters : string -> string -> Prop :=
| same_empty : same_letters EmptyString EmptyString
| same_char c d s t :
    lower_ascii c = lower_ascii d -> same_letters s t ->
    same_letters (String c s) (String d t).

(** Every cached analysis has matching counts and capped lists. *)
Definition cache_ok (st : state) : Prop :=
  forall c e d,
    get c (analysisCache st) = Some e -> CacheEntry.data e = Some d ->
    counts_match d /\ capped d.

(** The state in which the handler leaves the cache while the analysis
    runs. *)
Definition marked (w : RequestWorld) (category : string) (st : state) : state :=
  let cache := entry_of category (analysisCache st) in
  State (rawArticles st)
    (set category
       (CacheEntry.Build (CacheEntry.timestamp cache) (CacheEntry.data cache)
          true (StartAt (started w)))
       (analysisCache st)).

(** ** Scenarios

    Concrete worlds on which the properties are exercised. *)

Definition TECH_URL : string := "https://timesofindia.indiatimes.com/rssfeeds/66949542.cms".

Definition item_at (link title : string) (ms : Z) : Item.t :=
  Item.Build title link (Some title) None None None (Some (ValidDate ms)).

(** A cycle in which the technology feed answers at once with [items]
    and every other feed is down. *)
Definition tech_only (items : list Item.t) : FeedWorld :=
  {| parseURL := fun url _ =>
       if String.eqb url TECH_URL then Ok (FeedData.Build (Some "TOI Tech") items)
       else Err (Error "ETIMEDOUT");
     clock := fun _ _ => 0 |}.

(** A cycle in which every feed is down. *)
Definition all_down : FeedWorld :=
  {| parseURL := fun _ _ => Err (Error "ETIMEDOUT"); clock := fun _ _ => 0 |}.

(** One story, first published with the date 5000, then republished
    under the same url with the date 3000. *)
Definition first_cycle : FeedWorld := tech_only [item_at "https://toi/story" "Launch" 5000].
Definition second_cycle : FeedWorld :=
  tech_only [item_at "https://toi/story" "Launch (updated)" 3000].

Definition story_v1 : Article.t :=
  Article.Build "technology" "Launch" "Launch" "https://toi/story" "TOI Tech" 5000.
Definition story_v2 : Article.t :=
  Article.Build "technology" "Launch (updated)" "Launch (updated)" "https://toi/story"
    "TOI Tech" 3000.

(** A reply that is JSON but not of the requested shape: the sentiment
    is outside the enumeration, the score is a word, and the other
    members are missing. *)
Definition off_schema : completion :=
  Parsed (JObj [("summary", JStr "Shares rose."); ("sentiment", JStr "mixed");
                ("sentiment_score", JStr "high")]).



(** The scenarios coerce no string and no array to a number, so any
    reading of the two built-ins serves them. *)
Definition scenario_builtins : Builtins :=
  {| StringToNumber := fun _ => NaN; ArrayToNumber := fun _ => Ok NaN |}.

(** An annotated article with the score [q]. *)
Definition scored (url : string) (q : Q) : Analyzed.t :=
  Analyzed.Build url url "TOI Tech" 0 (JStr "") (JStr "") (JNum (Fin q))
    (JNum (Fin 0)) (JNum (Fin 0)) (JStr "") (JStr "").

Definition nine_scores : list Analyzed.t :=
  [ scored "a" (5 # 10); scored "b" (9 # 10); scored "c" (-5 # 10); scored "d" (4 # 10);
    scored "e" (8 # 10); scored "f" (0 # 10); scored "g" (6 # 10); scored "h" (7 # 10);
    scored "i" (3 # 10) ].

(** The state after the first cycle, and after a following cycle in
    which every feed is down. *)
Definition with_story : state :=
  State (fetchAllFeeds first_cycle rawArticles0) analysisCache0.

Definition story_and_error : state :=
  State (fetchAllFeeds all_down (fetchAllFeeds first_cycle rawArticles0)) analysisCache0.

(** A request that reads the clock at [t], finishes its analysis 1500 ms
    later, and gets [reply] from the LLM for every article. *)
Definition request_at (t : Z) (reply : completion) : RequestWorld :=
  {| now := t; started := t; stored := t + 1500; updated := t + 1500;
     llm := fun _ => reply |}.

Definition good_reply : completion :=
  Parsed (JObj [("summary", JStr "A launch."); ("sentiment", JStr "positive");
                ("bias", JStr "none"); ("mood", JStr ":)");
                ("sentiment_score", JNum (Fin (8 # 10)));
                ("bias_level", JNum (Fin 1)); ("manipulative_score", JNum (Fin 0))]).

(** A reply whose score is an object with a member [toString]: it
    cannot be coerced to a number. *)
Definition unreadable_score : completion :=
  Parsed (JObj [("summary", JStr "A launch."); ("sentiment", JStr "positive");
                ("sentiment_score", JObj [("toString", JStr "0.9")])]).

(** A cycle that brings six technology stories. *)
Definition six_stories : FeedWorld :=
  tech_only [ item_at "https://toi/1" "One" 6000; item_at "https://toi/2" "Two" 5000;
              item_at "https://toi/3" "Three" 4000; item_at "https://toi/4" "Four" 3000;
              item_at "https://toi/5" "Five" 2000; item_at "https://toi/6" "Six" 1000 ].

Definition with_six_stories : state :=
  State (fetchAllFeeds six_stories rawArticles0) analysisCache0.

(** ** The listing of [GET /api/articles] *)

Module CategoryInfo.
Record t := Build {
  article_count : nat;
  has_analysis : jsval;
  last_updated : option Z
}.
End CategoryInfo.

Module Listing.
Record t := Build {
  available_categories : list string;
  articles_per_category : list (string * CategoryInfo.t);
  initial_load_complete : bool
}.
End Listing.

(** [cache && cache.data && (Date.now() - cache.timestamp) < CACHE_DURATION]:
    the first falsy operand, or the comparison. *)
Definition has_analysis_at (now : Z) (cache : option CacheEntry.t) : jsval :=
  match cache with
  | None => JUndefined
  | Some e =>
      match CacheEntry.data e with
      | None => JNull
      | Some _ => JBool (now - CacheEntry.timestamp e <? CACHE_DURATION)
      end
  end.

(** [articles.length > 0 ? articles[0].timestamp : null] *)
Definition first_timestamp (articles : list Article.t) : option Z :=
  match articles with
  | [] => None
  | a :: _ => Some (Article.timestamp a)
  end.

(** The handler of [GET /api/articles].  [Object.keys(rawArticles)] lists
    the own names of [rawArticles], under each of which it holds a
    category state; [clock category] is what [Date.now()] reads while that
    category is summarised. *)
Definition list_articles (clock : string -> Z) (initialLoadComplete : bool) (st : state)
  : Listing.t :=
  Listing.Build (keys (rawArticles st))
    (fold_left
       (fun acc entry =>
          set (fst entry)
            (CategoryInfo.Build
               (List.length (CategoryState.articles (snd entry)))
               (has_analysis_at (clock (fst entry)) (get (fst entry) (analysisCache st)))
               (first_timestamp (CategoryState.articles (snd entry))))
            acc)
       (rawArticles st) [])
    initialLoadComplete.

(** ** The endpoint [GET /api/llm-news-summary/:category] *)

Definition NEWLINE : string := String (ascii_of_nat 10) EmptyString.
Definition QUOTE : string := String (ascii_of_nat 34) EmptyString.

(** The decimal text of a natural number, as a template literal prints
    it. *)
Definition number_text (n : nat) : string := NilZero.string_of_uint (Nat.to_uint n).

(** A string of the program is held as its UTF-8 text, and [slice]
    counts UTF-16 code units: a character of one, two or three bytes is
    one code unit, a character of four bytes is two, a surrogate pair.
    When only the first unit of a pair is inside the slice, the slice ends
    with that lone high surrogate, written in the three bytes that
    generalized UTF-8 gives it. *)
Definition high_surrogate (b0 b1 b2 b3 : ascii) : string :=
  let code_point :=
    ((N_of_ascii b0 mod 8) * 262144 + (N_of_ascii b1 mod 64) * 4096
     + (N_of_ascii b2 mod 64) * 64 + N_of_ascii b3 mod 64)%N in
  let unit := (55296 + (code_point - 65536) / 1024)%N in
  String (ascii_of_N 237)
    (String (ascii_of_N (128 + (unit / 64) mod 64))
       (String (ascii_of_N (128 + unit mod 64)) EmptyString)).

(** [s.slice(0, n)], on well-formed text. *)
Fixpoint string_slice0 (n : nat) (s : string) {struct s} : string :=
  match n, s with
  | O, _ => EmptyString
  | _, EmptyString => EmptyString
  | S m, String b0 rest =>
      if (N_of_ascii b0 <? 192)%N then String b0 (string_slice0 m rest)
      else if (N_of_ascii b0 <? 224)%N then
        match rest with
        | String b1 rest1 => String b0 (String b1 (string_slice0 m rest1))
        | EmptyString => String b0 EmptyString
        end
      else if (N_of_ascii b0 <? 240)%N then
        match rest with
        | String b1 (String b2 rest2) =>
            String b0 (String b1 (String b2 (string_slice0 m rest2)))
        | _ => String b0 rest
        end
      else
        match rest with
        | String b1 (String b2 (String b3 rest3)) =>
            match m with
            | O => high_surrogate b0 b1 b2 b3
            | S m' =>
                String b0 (String b1 (String b2 (String b3 (string_slice0 m' rest3))))
            end
        | _ => String b0 rest
        end
  end.

(** [(a, i) => `${i + 1}. [${a.title}]: ${a.content.slice(0, 200)}`] *)
Definition context_line (i : nat) (a : Article.t) : string :=
  (number_text (i + 1) ++ ". [" ++ Article.title a ++ "]: "
   ++ string_slice0 200 (Article.content a))%string.

(** [l.map((a, i) => f(i, a))], from index [i] on. *)
Fixpoint map_indexed {A B} (f : nat -> A -> B) (i : nat) (l : list A) : list B :=
  match l with
  | [] => []
  | a :: rest => f i a :: map_indexed f (S i) rest
  end.

(** [articles.slice(0, 5).map(...).join('\n')] *)
Definition summary_context (articles : list Article.t) : string :=
  String.concat NEWLINE (map_indexed context_line 0 (slice0 5 articles)).

Definition summary_prompt (category context : string) : string :=
  ("You are an AI news analyst. Here are the latest news headlines and summaries for the "
   ++ QUOTE ++ category ++ QUOTE ++ " category:" ++ NEWLINE ++ NEWLINE ++ context
   ++ NEWLINE ++ NEWLINE
   ++ "Please provide a 3-5 sentence summary of the overall trends, sentiment, and any notable events or patterns you see in this news batch.")%string.

Inductive summary_response :=
| NoArticlesFound
| Summary (summary : string)
| SummaryFailed (detail : string).

Definition summary_status (r : summary_response) : Z :=
  match r with
  | NoArticlesFound => 404
  | Summary _ => 200
  | SummaryFailed _ => 500
  end.

(** The handler, given what [await getGroqAnswer(context, prompt)] yields
    for each pair of arguments.  [rawArticles[category]?.articles || []]
    is the category's list, and the empty list for a name that
    [rawArticles] does not hold or only inherits. *)
Definition llm_news_summary (getGroqAnswer : string -> string -> result string)
    (rawArticles : list (string * CategoryState.t)) (param : string) : summary_response :=
  let category := toLowerCase param in
  let articles :=
    match get category rawArticles with
    | Some cs => CategoryState.articles cs
    | None => []
    end in
  match articles with
  | [] => NoArticlesFound
  | _ :: _ =>
      let context := summary_context articles in
      let prompt := summary_prompt category context in
      match getGroqAnswer context prompt with
      | Ok summary => Summary summary
      | Err e => SummaryFailed (message e)
      end
  end.

(** ** The serverless function for one category

    The function keeps no state: each invocation fetches the feeds of the
    category, annotates the five most recent articles and answers. *)

Record Event := {
  httpMethod : string;
  path : string
}.

Definition validCategories : list string :=
  ["breaking"; "technology"; "business"; "science"; "health"].

Module NewsBody.
Record t := Build {
  category : string;
  summary : Summary.t;
  articles : Buckets.t;
  last_updated : Z
}.
End NewsBody.

Inductive news_response :=
| MethodNotAllowed
| InvalidCategory (available_categories : list string)
| NoFeedsAvailable (category : string)
| NoArticlesAvailable (category : string)
| NewsResult (body : NewsBody.t)
| NewsInternalError (message : string) (category : string).

Definition news_status (r : news_response) : Z :=
  match r with
  | MethodNotAllowed => 405
  | InvalidCategory _ => 400
  | NoFeedsAvailable _ => 404
  | NoArticlesAvailable _ => 404
  | NewsResult _ => 200
  | NewsInternalError _ _ => 500
  end.

(** What the RSS servers, the LLM and the clock do during one
    invocation. *)
Record NewsWorld := {
  news_feeds : FeedWorld;
  news_llm : Article.t -> completion;
  news_clock : Z
}.

Section ServerlessFunction.
Context {B : Builtins}.

(** The three lists of the serverless function: filtered and sorted like
    the buckets of the server, but not cut. *)
Definition uncut_buckets (analyzedArticles : list Analyzed.t) : result Buckets.t :=
  pos <- Array_filter is_positive analyzedArticles ;;
  neg <- Array_filter is_negative analyzedArticles ;;
  neu <- Array_filter is_neutral analyzedArticles ;;
  Ok (Buckets.Build (Array_sort descending pos) (Array_sort ascending neg) neu).

(** [exports.handler].  The loop over the feeds of the category is the
    loop of [fetchAllFeeds] without its success flag. *)
Definition news_handler (w : NewsWorld) (event : Event) : news_response :=
  if negb (String.eqb (httpMethod event) "GET") then MethodNotAllowed
  else
    let category := toLowerCase (last (split "/" (path event)) EmptyString) in
    if negb (existsb (String.eqb category) validCategories) then
      InvalidCategory validCategories
    else
      let categoryFeeds :=
        filter (fun feed => String.eqb (Feed.category feed) category) RSS_FEEDS in
      match categoryFeeds with
      | [] => NoFeedsAvailable category
      | _ :: _ =>
          let articles := fst (tryFeeds (news_feeds w) categoryFeeds [] false) in
          let recentArticles := slice0 5 (Array_sort newest_first articles) in
          match recentArticles with
          | [] => NoArticlesAvailable category
          | _ :: _ =>
              let analyzedArticles :=
                map (fun article => analyzeSentiment article (news_llm w article))
                    recentArticles in
              match uncut_buckets analyzedArticles with
              | Err e => NewsInternalError (message e) category
              | Ok lists =>
                  NewsResult
                    (NewsBody.Build category
                       (Summary.Build
                          (List.length recentArticles)
                          (List.length analyzedArticles)
                          (List.length (Buckets.positive lists))
                          (List.length (Buckets.negative lists))
                          (List.length (Buckets.neutral lists)))
                       lists
                       (news_clock w))
              end
          end
      end.
End ServerlessFunction.

(** ** Further vocabulary *)

(** What the state of a category satisfies whenever a request can read
    it, for the category [category] it is stored under. *)
Definition category_sound (category : string) (cs : CategoryState.t) : Prop :=
  NoDup (map Article.url (CategoryState.articles cs)) /\
  Forall (fun a => Article.category a = category) (CategoryState.articles cs) /\
  (CategoryState.lastError cs = None \/ CategoryState.lastError cs = Some ALL_FAILED) /\
  retained_ok cs.

(** The feeds grouped under [category] so far, and one step of the
    grouping. *)
Definition grouped_under (category : string) (acc : list (string * list Feed.t)) : list Feed.t :=
  match get category acc with
  | Some feeds => feeds
  | None => []
  end.

Definition group_step (acc : list (string * list Feed.t)) (feed : Feed.t)
  : list (string * list Feed.t) :=
  match get (Feed.category feed) acc with
  | None => set (Feed.category feed) [feed] acc
  | Some fs => set (Feed.category feed) (fs ++ [feed]) acc
  end.

(** A response given without running an analysis. *)
Definition early (r : response) : Prop :=
  match r with
  | JustAnalyzed _ | InternalError _ _ => False
  | _ => True
  end.

(** The summary of a response body does not count more articles as
    analyzed than there are, nor more articles than are retained. *)
Definition bounded (d : Data.t) : Prop :=
  (Summary.analyzed_articles (Data.summary d) <= Summary.total_articles (Data.summary d))%nat /\
  (Summary.total_articles (Data.summary d) <= MAX_RETAINED)%nat.

(** The entry of the listing for a category and its state. *)
Definition category_info (clock : string -> Z) (cache : list (string * CacheEntry.t))
    (category : string) (cs : CategoryState.t) : CategoryInfo.t :=
  CategoryInfo.Build (List.length (CategoryState.articles cs))
    (has_analysis_at (clock category) (get category cache))
    (first_timestamp (CategoryState.articles cs)).

(** Two articles of which the summary endpoint shows the same: the title
    and the first 200 code units of the content. *)
Definition same_headline (a b : Article.t) : Prop :=
  Article.title a = Article.title b /\
  string_slice0 200 (Article.content a) = string_slice0 200 (Article.content b).

(** The category an invocation of the serverless function is about. *)
Definition event_category (event : Event) : string :=
  toLowerCase (last (split "/" (path event)) EmptyString).

(** A feed that brings no article: it fails, or it comes back empty. *)
Definition delivers_nothing (w : FeedWorld) (feed : Feed.t) : Prop :=
  forall newArticles, processFeed w feed = Ok newArticles -> newArticles = [].

(** ** Further scenarios *)

(** A cycle in which the technology feed carries a dated story and an
    item whose date does not parse. *)
Definition bad_date_item : Item.t :=
  Item.Build "Undated" "https://toi/undated" None None None None (Some InvalidDate).

Definition one_bad_date : FeedWorld :=
  tech_only [item_at "https://toi/story" "Launch" 5000; bad_date_item].

(** An invocation of the serverless function for the technology
    category, while the feed brings six stories or is down. *)
Definition tech_event : Event :=
  {| httpMethod := "GET"; path := "/.netlify/functions/news/Technology" |}.

Definition six_stories_world : NewsWorld :=
  {| news_feeds := six_stories; news_llm := fun _ => good_reply; news_clock := 7000 |}.

Definition silent_world : NewsWorld :=
  {| news_feeds := all_down; news_llm := fun _ => good_reply; news_clock := 7000 |}.

(* ================================================================== *)
(** * Part II: properties *)
(* ================================================================== *)

Unset Implicit Arguments.

(** ** Insertion-ordered maps *)

Section OrderedMapFacts.
Context {V : Type}.
Implicit Types (k : string) (v : V) (m : list (string * V)).

Lemma get_set k k' v m :
  get k' (set k v m) = if String.eqb k' k then Some v else get k' m.
Proof.
  induction m as [|[k0 v0] m IH]; simpl.
  - reflexivity.
  - destruct (String.eqb_spec k k0) as [->|Hk]; simpl.
    + destruct (String.eqb k' k0); reflexivity.
    + rewrite IH. destruct (String.eqb_spec k' k0) as [->|Hk'].
      * destruct (String.eqb_spec k0 k); congruence.
      * reflexivity.
Qed.

Lemma get_set_eq k v m : get k (set k v m) = Some v.
Proof. rewrite get_set, String.eqb_refl. reflexivity. Qed.

Lemma get_set_ne k k' v m : k' <> k -> get k' (set k v m) = get k' m.
Proof.
  intros Hne. rewrite get_set.
  destruct (String.eqb_spec k' k); congruence.
Qed.

Lemma keys_set_present k v v0 m : get k m = Some v0 -> keys (set k v m) = keys m.
Proof.
  unfold keys. induction m as [|[k0 v1] m IH]; simpl; [discriminate|].
  destruct (String.eqb k k0); simpl; intros H.
  - reflexivity.
  - rewrite IH by assumption. reflexivity.
Qed.

Lemma get_Some_In k v m : get k m = Some v -> In (k, v) m.
Proof.
  induction m as [|[k0 v0] m IH]; simpl; [discriminate|].
  destruct (String.eqb_spec k k0) as [->|_].
  - intros [= ->]. now left.
  - intros H. right. auto.
Qed.

Lemma get_None_keys k m : get k m = None <-> ~ In k (keys m).
Proof.
  induction m as [|[k0 v0] m IH]; simpl.
  - tauto.
  - destruct (String.eqb_spec k k0) as [->|Hne].
    + split; [discriminate | intros H; exfalso; apply H; now left].
    + rewrite IH. unfold keys. split; intros H; [intros [E|HIn]; congruence | tauto].
Qed.

Lemma In_keys_get k m : In k (keys m) -> exists v, get k m = Some v.
Proof.
  intros HIn. destruct (get k m) as [v|] eqn:E; [eauto|].
  apply get_None_keys in E. contradiction.
Qed.

Lemma In_get k v m : NoDup (keys m) -> In (k, v) m -> get k m = Some v.
Proof.
  induction m as [|[k0 v0] m IH]; simpl; [tauto|].
  intros Hnd [E|HIn].
  - injection E as -> ->. now rewrite String.eqb_refl.
  - inversion Hnd as [|? ? Hnotin Hnd']; subst.
    destruct (String.eqb_spec k k0) as [->|_].
    + exfalso. apply Hnotin. change (In (fst (k0, v)) (map fst m)). now apply in_map.
    + auto.
Qed.

Lemma keys_set k k' v m : In k' (keys (set k v m)) <-> k' = k \/ In k' (keys m).
Proof.
  induction m as [|[k0 v0] m IH]; simpl.
  - intuition congruence.
  - destruct (String.eqb_spec k k0) as [->|Hne]; simpl.
    + intuition congruence.
    + unfold keys in IH. rewrite IH. intuition congruence.
Qed.

Lemma NoDup_keys_set k v m : NoDup (keys m) -> NoDup (keys (set k v m)).
Proof.
  induction m as [|[k0 v0] m IH]; simpl; intros Hnd.
  - constructor; [intros [] | constructor].
  - inversion Hnd as [|? ? Hnotin Hnd']; subst.
    destruct (String.eqb_spec k k0) as [->|Hne]; simpl.
    + now constructor.
    + constructor; [|now apply IH].
      intros HIn. apply keys_set in HIn. destruct HIn; [congruence | contradiction].
Qed.

Lemma get_app k m1 m2 :
  get k (m1 ++ m2) = match get k m1 with Some v => Some v | None => get k m2 end.
Proof.
  induction m1 as [|[k0 v0] m1 IH]; simpl; [reflexivity|].
  destruct (String.eqb k k0); [reflexivity | exact IH].
Qed.

(** Setting the pairs of [l] one after the other: the keys stay
    distinct, and a key ends up bound to its last value in [l]. *)
Lemma NoDup_keys_fold (l m : list (string * V)) :
  NoDup (keys m) ->
  NoDup (keys (fold_left (fun m kv => set (fst kv) (snd kv) m) l m)).
Proof.
  revert m. induction l as [|[k v] l IH]; simpl; intros m Hnd; [assumption|].
  apply IH. now apply NoDup_keys_set.
Qed.

Lemma get_fold k (l m : list (string * V)) :
  get k (fold_left (fun m kv => set (fst kv) (snd kv) m) l m) =
  match get k (rev l) with Some v => Some v | None => get k m end.
Proof.
  revert m. induction l as [|[k0 v0] l IH]; simpl; intros m; [reflexivity|].
  rewrite IH, get_app, get_set. simpl.
  destruct (get k (rev l)); [reflexivity|].
  destruct (String.eqb k k0); reflexivity.
Qed.

Lemma NoDup_keys_Map_of (l : list (string * V)) : NoDup (keys (Map_of l)).
Proof. apply NoDup_keys_fold. constructor. Qed.

Lemma get_Map_of k (l : list (string * V)) : get k (Map_of l) = get k (rev l).
Proof. unfold Map_of. rewrite get_fold. destruct (get k (rev l)); reflexivity. Qed.
End OrderedMapFacts.

(** ** Sorting *)

Section SortFacts.
Context {A : Type}.
Variable cmp : A -> A -> jsnum.

Lemma sort_insert_perm a l : Permutation (sort_insert cmp a l) (a :: l).
Proof.
  induction l as [|b l IH]; simpl; [reflexivity|].
  destruct (sorts_after cmp a b); [|reflexivity].
  rewrite IH. apply perm_swap.
Qed.

Lemma Array_sort_perm l : Permutation (Array_sort cmp l) l.
Proof.
  induction l as [|a l IH]; simpl; [reflexivity|].
  rewrite sort_insert_perm. now constructor.
Qed.

Lemma Array_sort_In a l : In a (Array_sort cmp l) <-> In a l.
Proof.
  split; apply Permutation_in; [|symmetry]; apply Array_sort_perm.
Qed.

(** The order of the result, for elements (those in [P]) on which the
    comparator agrees with a preorder [le]. *)
Variable P : A -> Prop.
Variable le : A -> A -> Prop.
Hypothesis le_after : forall a b, P a -> P b -> sorts_after cmp a b = true -> le b a.
Hypothesis le_stay : forall a b, P a -> P b -> sorts_after cmp a b = false -> le a b.
Hypothesis le_trans : forall a b c, P a -> P b -> P c -> le a b -> le b c -> le a c.

Lemma sort_insert_sorted a l :
  P a -> Forall P l -> StronglySorted le l -> StronglySorted le (sort_insert cmp a l).
Proof.
  intros Pa. induction l as [|b l IH]; simpl; intros HP Hs.
  - constructor; constructor.
  - inversion HP as [|? ? Pb HPl]; subst.
    inversion Hs as [|? ? Hsl Hbl]; subst.
    destruct (sorts_after cmp a b) eqn:E.
    + constructor; [now apply IH|].
      rewrite Forall_forall in *. intros x Hx.
      apply (Permutation_in _ (sort_insert_perm a l)) in Hx.
      destruct Hx as [<-|Hx]; [now apply le_after | now apply Hbl].
    + constructor; [assumption|].
      constructor; [now apply le_stay|].
      rewrite Forall_forall in *. intros x Hx.
      apply le_trans with b; auto.
Qed.

Lemma Array_sort_sorted l : Forall P l -> StronglySorted le (Array_sort cmp l).
Proof.
  induction l as [|a l IH]; simpl; intros HP.
  - constructor.
  - inversion HP as [|? ? Pa HPl]; subst. apply sort_insert_sorted.
    + exact Pa.
    + apply Forall_forall. intros x Hx. apply (proj1 (Array_sort_In _ _)) in Hx.
      rewrite Forall_forall in HPl. auto.
    + now apply IH.
Qed.
End SortFacts.

Lemma StronglySorted_firstn {A} (R : A -> A -> Prop) n l :
  StronglySorted R l -> StronglySorted R (firstn n l).
Proof.
  revert l. induction n as [|n IH]; intros [|a l] Hs; simpl; try constructor.
  - apply IH. now inversion Hs.
  - inversion Hs as [|? ? _ Hal]; subst.
    rewrite Forall_forall in *. intros x Hx. apply Hal.
    rewrite <- (firstn_skipn n l). apply in_or_app. now left.
Qed.

Lemma StronglySorted_app_le {A} (R : A -> A -> Prop) l1 l2 :
  StronglySorted R (l1 ++ l2) -> forall x y, In x l1 -> In y l2 -> R x y.
Proof.
  induction l1 as [|a l1 IH]; simpl; intros Hs x y Hx Hy; [contradiction|].
  inversion Hs as [|? ? Hs' Ha]; subst.
  destruct Hx as [<-|Hx].
  - rewrite Forall_forall in Ha. apply Ha, in_or_app. now right.
  - now apply IH.
Qed.

Lemma In_firstn {A} n (l : list A) x : In x (firstn n l) -> In x l.
Proof.
  intros H. rewrite <- (firstn_skipn n l). apply in_or_app. now left.
Qed.

Lemma NoDup_firstn {A} n (l : list A) : NoDup l -> NoDup (firstn n l).
Proof.
  revert l. induction n as [|n IH]; intros [|a l] Hnd; simpl; try constructor.
  - inversion Hnd; subst. intros Hin. apply In_firstn in Hin. contradiction.
  - apply IH. now inversion Hnd.
Qed.

(** The comparator of the fetcher orders by timestamp, newest first. *)
Lemma newest_first_after a b :
  sorts_after newest_first a b = (Article.timestamp a <? Article.timestamp b).
Proof.
  unfold sorts_after, newest_first, num_of_Z, num_lt, Qlt_bool, Qle_bool. simpl.
  rewrite Z.mul_1_r.
  destruct (Z.ltb_spec (Article.timestamp a) (Article.timestamp b));
    destruct (Z.leb_spec (Article.timestamp b - Article.timestamp a) 0); simpl; lia.
Qed.

Lemma sort_newest_first_sorted l : StronglySorted not_older (Array_sort newest_first l).
Proof.
  apply Array_sort_sorted with (P := fun _ => True).
  - intros a b _ _ H. rewrite newest_first_after in H. unfold not_older.
    apply Z.ltb_lt in H. lia.
  - intros a b _ _ H. rewrite newest_first_after in H. unfold not_older.
    apply Z.ltb_ge in H. lia.
  - unfold not_older. intros. lia.
  - apply Forall_forall. trivial.
Qed.

(** ** Deduplication by url *)

Lemma Forall_set {V} (Q : string * V -> Prop) k v (m : list (string * V)) :
  Forall Q m -> Q (k, v) -> Forall Q (set k v m).
Proof.
  induction m as [|[k0 v0] m IH]; simpl; intros Hm Hkv.
  - now constructor.
  - inversion Hm; subst.
    destruct (String.eqb_spec k k0) as [->|_]; constructor; auto.
Qed.

Lemma Forall_Map_of {V} (Q : string * V -> Prop) (l : list (string * V)) :
  Forall Q l -> Forall Q (Map_of l).
Proof.
  unfold Map_of. generalize (@nil (string * V)) (@Forall_nil _ Q).
  induction l as [|[k v] l IH]; simpl; intros m Hm Hl; [assumption|].
  inversion Hl; subst. apply IH; [now apply Forall_set | assumption].
Qed.

Lemma get_by_url u l :
  get u (map (fun a => (Article.url a, a)) l) =
  find (fun a => String.eqb u (Article.url a)) l.
Proof.
  induction l as [|a l IH]; simpl; [reflexivity|].
  destruct (String.eqb u (Article.url a)); [reflexivity | exact IH].
Qed.

Lemma Map_of_by_url l :
  Forall (fun kv => Article.url (snd kv) = fst kv)
         (Map_of (map (fun a => (Article.url a, a)) l)).
Proof.
  apply Forall_Map_of, Forall_forall. intros kv Hkv.
  apply in_map_iff in Hkv. destruct Hkv as (a & <- & _). reflexivity.
Qed.

Lemma get_uniqueArticles u l :
  get u (Map_of (map (fun a => (Article.url a, a)) l)) = last_seen u l.
Proof.
  unfold last_seen. rewrite get_Map_of, <- map_rev. apply get_by_url.
Qed.

(** An article is among the unique ones exactly when it is the last one
    seen with its url. *)
Lemma In_uniqueArticles a l :
  In a (uniqueArticles l) <-> last_seen (Article.url a) l = Some a.
Proof.
  unfold uniqueArticles, values. rewrite <- get_uniqueArticles. split.
  - intros H. apply in_map_iff in H. destruct H as ([k b] & E & HIn). simpl in E. subst b.
    pose proof (Map_of_by_url l) as Hurl. rewrite Forall_forall in Hurl.
    specialize (Hurl _ HIn). simpl in Hurl. subst k.
    apply In_get; [apply NoDup_keys_Map_of | assumption].
  - intros H. apply get_Some_In in H.
    change a with (snd (Article.url a, a)). now apply in_map.
Qed.

Lemma urls_uniqueArticles l :
  map Article.url (uniqueArticles l) = keys (Map_of (map (fun a => (Article.url a, a)) l)).
Proof.
  unfold uniqueArticles, values, keys. rewrite map_map.
  apply map_ext_in. intros kv Hkv.
  pose proof (Map_of_by_url l) as Hurl. rewrite Forall_forall in Hurl. now apply Hurl.
Qed.

Lemma NoDup_urls_uniqueArticles l : NoDup (map Article.url (uniqueArticles l)).
Proof. rewrite urls_uniqueArticles. apply NoDup_keys_Map_of. Qed.

Lemma last_seen_Some u l a : last_seen u l = Some a -> In a l /\ Article.url a = u.
Proof.
  unfold last_seen. intros H. apply find_some in H. destruct H as [HIn E].
  apply String.eqb_eq in E. split; [now apply in_rev | congruence].
Qed.

Lemma last_seen_In a l : In a l -> exists b, last_seen (Article.url a) l = Some b.
Proof.
  intros HIn. unfold last_seen.
  destruct (find _ (rev l)) as [b|] eqn:E; [eauto|].
  apply find_none with (x := a) in E; [|now rewrite <- in_rev].
  rewrite String.eqb_refl in E. discriminate.
Qed.

(** Every url of the input survives deduplication. *)
Lemma uniqueArticles_covers a l :
  In a l -> In (Article.url a) (map Article.url (uniqueArticles l)).
Proof.
  intros HIn. destruct (last_seen_In a l HIn) as [b Hb].
  destruct (last_seen_Some _ _ _ Hb) as [_ Eb].
  rewrite <- Eb in Hb. apply In_uniqueArticles in Hb.
  rewrite <- Eb. now apply in_map.
Qed.

(** ** What a successful cycle retains *)

Lemma retain_In a existing fresh :
  In a (retain existing fresh) -> last_seen (Article.url a) (existing ++ fresh) = Some a.
Proof.
  unfold retain, slice0. intros H. apply In_firstn in H.
  apply (proj1 (Array_sort_In _ _ _)) in H. now apply In_uniqueArticles.
Qed.

Lemma retain_NoDup existing fresh : NoDup (map Article.url (retain existing fresh)).
Proof.
  unfold retain, slice0. rewrite <- firstn_map. apply NoDup_firstn.
  eapply Permutation_NoDup; [|apply (NoDup_urls_uniqueArticles (existing ++ fresh))].
  apply Permutation_map. symmetry. apply Array_sort_perm.
Qed.

Lemma retain_length existing fresh :
  (List.length (retain existing fresh) <= MAX_RETAINED)%nat.
Proof. unfold retain, slice0. apply firstn_le_length. Qed.

Lemma retain_sorted existing fresh : StronglySorted not_older (retain existing fresh).
Proof. unfold retain, slice0. apply StronglySorted_firstn, sort_newest_first_sorted. Qed.

Lemma retain_covers a existing fresh :
  (List.length (uniqueArticles (existing ++ fresh)) <= MAX_RETAINED)%nat ->
  In a (existing ++ fresh) ->
  In (Article.url a) (map Article.url (retain existing fresh)).
Proof.
  intros Hlen HIn. unfold retain, slice0.
  rewrite firstn_all2
    by (rewrite (Permutation_length (Array_sort_perm newest_first _)); exact Hlen).
  apply (Permutation_in _ (Permutation_map _ (Permutation_sym (Array_sort_perm newest_first _)))).
  now apply uniqueArticles_covers.
Qed.

(** ** The loop over the feeds of a category *)

Lemma succeeds_or_fails w feed : succeeds w feed \/ fails w feed.
Proof.
  unfold succeeds, fails. destruct (processFeed w feed); eauto.
Qed.

Lemma tryFeeds_true w feeds allArticles :
  snd (tryFeeds w feeds allArticles true) = true.
Proof.
  revert allArticles. induction feeds as [|feed feeds IH]; simpl; intros; [reflexivity|].
  destruct (processFeed w feed); apply IH.
Qed.

Lemma tryFeeds_success w feeds allArticles categorySuccess :
  Exists (succeeds w) feeds ->
  snd (tryFeeds w feeds allArticles categorySuccess) = true.
Proof.
  intros H. revert allArticles categorySuccess.
  induction H as [feed feeds [l Hl]|feed feeds _ IH]; simpl; intros.
  - rewrite Hl. apply tryFeeds_true.
  - destruct (processFeed w feed); apply IH.
Qed.

Lemma tryFeeds_all_fail w feeds allArticles categorySuccess :
  Forall (fails w) feeds ->
  tryFeeds w feeds allArticles categorySuccess = (allArticles, categorySuccess).
Proof.
  intros H. revert allArticles categorySuccess.
  induction H as [|feed feeds [e He] _ IH]; simpl; intros; [reflexivity|].
  rewrite He. apply IH.
Qed.

Lemma fetchCategory_success w feeds cs allArticles :
  tryFeeds w feeds [] false = (allArticles, true) ->
  fetchCategory w feeds cs =
  CategoryState.Build (retain (CategoryState.articles cs) allArticles) false None.
Proof. unfold fetchCategory. intros ->. reflexivity. Qed.

Lemma fetchCategory_failure w feeds cs allArticles :
  tryFeeds w feeds [] false = (allArticles, false) ->
  fetchCategory w feeds cs =
  CategoryState.Build (CategoryState.articles cs) false (Some ALL_FAILED).
Proof. unfold fetchCategory. intros ->. reflexivity. Qed.

Lemma fetchCategory_retained_ok w feeds cs :
  retained_ok cs -> retained_ok (fetchCategory w feeds cs).
Proof.
  intros Hcs. unfold fetchCategory.
  destruct (tryFeeds w feeds [] false) as [allArticles [|]]; simpl.
  - split; simpl; [apply retain_length | apply retain_sorted].
  - exact Hcs.
Qed.

(** Three failed attempts are a failed source. *)
Lemma fetchWithRetry_exhausted w feed :
  (forall attempt, (1 <= attempt <= 3)%nat ->
                   exists e, parseURL w (Feed.url feed) attempt = Err e) ->
  fails w feed.
Proof.
  intros H. unfold fails, processFeed, fetchWithRetry. simpl.
  destruct (H 1%nat ltac:(lia)) as [e1 ->].
  destruct (H 2%nat ltac:(lia)) as [e2 ->].
  destruct (H 3%nat ltac:(lia)) as [e3 ->].
  simpl. eauto.
Qed.

(** ** The loop over the categories *)

Lemma fetchCategories_other w entries raw category :
  ~ In category (keys entries) ->
  get category (fetchCategories w entries raw) = get category raw.
Proof.
  revert raw. induction entries as [|[c feeds] entries IH]; simpl; intros raw Hnot.
  - reflexivity.
  - destruct (get c raw) as [cs|] eqn:E; [|reflexivity].
    rewrite IH by tauto. apply get_set_ne. intros ->. tauto.
Qed.

Lemma fetchCategories_get w entries raw category feeds cs :
  NoDup (keys entries) ->
  (forall c, In c (keys entries) -> get c raw <> None) ->
  get category entries = Some feeds ->
  get category raw = Some cs ->
  get category (fetchCategories w entries raw) = Some (fetchCategory w feeds cs).
Proof.
  revert raw. induction entries as [|[c fs] entries IH]; simpl; intros raw Hnd Hall Hfeeds Hcs.
  - discriminate.
  - inversion Hnd as [|? ? Hnotin Hnd']; subst.
    destruct (get c raw) as [csc|] eqn:Ec.
    2:{ exfalso. apply (Hall c); auto. }
    destruct (String.eqb_spec category c) as [->|Hne].
    + injection Hfeeds as ->. rewrite fetchCategories_other by assumption.
      rewrite get_set_eq. congruence.
    + apply IH; try assumption.
      * intros c' Hc'. rewrite get_set.
        destruct (String.eqb c' c); [discriminate | apply Hall; auto].
      * rewrite get_set_ne by assumption. assumption.
Qed.

Lemma fetchCategories_retained_ok w entries raw :
  all_retained_ok raw -> all_retained_ok (fetchCategories w entries raw).
Proof.
  revert raw. induction entries as [|[c feeds] entries IH]; simpl; intros raw Hraw.
  - assumption.
  - destruct (get c raw) as [cs|] eqn:E; [|assumption].
    apply IH. intros category cs'. rewrite get_set.
    destruct (String.eqb category c).
    + intros [= <-]. apply fetchCategory_retained_ok. now apply (Hraw c).
    + apply Hraw.
Qed.

Lemma fetchCategories_keys w entries (raw : list (string * CategoryState.t)) :
  keys (fetchCategories w entries raw) = keys raw.
Proof.
  revert raw. induction entries as [|[c feeds] entries IH]; simpl; intros raw.
  - reflexivity.
  - destruct (get c raw) as [cs|] eqn:E; [|reflexivity].
    rewrite IH. now apply keys_set_present with cs.
Qed.

Lemma feedsByCategory_keys :
  keys feedsByCategory = ["breaking"; "technology"; "business"; "science"; "health"].
Proof. reflexivity. Qed.

Lemma has_categories_get {V} (obj : list (string * V)) c :
  has_categories obj ->
  In c ["breaking"; "technology"; "business"; "science"; "health"] ->
  get c obj <> None.
Proof.
  unfold has_categories. intros Hk HIn Hnone.
  apply get_None_keys in Hnone. rewrite Hk in Hnone. contradiction.
Qed.

Lemma fetchAllFeeds_get w raw category feeds cs :
  has_categories raw ->
  get category feedsByCategory = Some feeds ->
  get category raw = Some cs ->
  get category (fetchAllFeeds w raw) = Some (fetchCategory w feeds cs).
Proof.
  intros Hraw Hfeeds Hcs. unfold fetchAllFeeds.
  apply fetchCategories_get; try assumption.
  - rewrite feedsByCategory_keys. repeat constructor; simpl; intuition discriminate.
  - intros c Hc. rewrite feedsByCategory_keys in Hc. now apply has_categories_get.
Qed.

(** ** The feed fetcher: claims C2, C7 and C8 *)

(** C2, as stated, fails: the entry kept for a url is not the one with
    the newest timestamp.  The story is retained with the date 5000 after
    the first cycle; the second cycle brings the same url with the date
    3000, and that older-dated copy replaces the retained one. *)
Lemma dedup_keeps_older_timestamp :
  let after1 := fetchAllFeeds first_cycle rawArticles0 in
  let after2 := fetchAllFeeds second_cycle after1 in
  option_map CategoryState.articles (get "technology" after1) = Some [story_v1] /\
  option_map CategoryState.articles (get "technology" after2) = Some [story_v2] /\
  Article.url story_v1 = Article.url story_v2 /\
  Article.timestamp story_v2 < Article.timestamp story_v1.
Proof. vm_compute. repeat split; reflexivity. Qed.

(** C2, amended: when a cycle succeeds for a category, the retained list
    holds each url at most once; the entry kept for a url is the one seen
    last in the list made of the existing articles followed by the newly
    fetched ones, whatever its timestamp; and while there are at most ten
    distinct urls, every url of that list is retained. *)
Theorem dedup_keeps_last_seen w feeds cs allArticles :
  tryFeeds w feeds [] false = (allArticles, true) ->
  let combined := CategoryState.articles cs ++ allArticles in
  let retained := CategoryState.articles (fetchCategory w feeds cs) in
  NoDup (map Article.url retained) /\
  (forall a, In a retained -> last_seen (Article.url a) combined = Some a) /\
  ((List.length (uniqueArticles combined) <= MAX_RETAINED)%nat ->
   forall a, In a combined -> In (Article.url a) (map Article.url retained)).
Proof.
  intros Hok. rewrite (@fetchCategory_success w feeds cs allArticles Hok). simpl. split; [|split].
  - apply retain_NoDup.
  - intros a. apply retain_In.
  - intros Hlen a. now apply retain_covers.
Qed.

Lemma dedup_keeps_last_seen_witness :
  let cs := CategoryState.Build [story_v1] false None in
  let retained :=
    CategoryState.articles
      (fetchCategory second_cycle [Feed.Build "technology" TECH_URL] cs) in
  NoDup (map Article.url retained) /\
  (forall a, In a retained -> last_seen (Article.url a) ([story_v1] ++ [story_v2]) = Some a) /\
  ((List.length (uniqueArticles ([story_v1] ++ [story_v2])) <= MAX_RETAINED)%nat ->
   forall a, In a ([story_v1] ++ [story_v2]) -> In (Article.url a) (map Article.url retained)).
Proof.
  exact (@dedup_keeps_last_seen second_cycle [Feed.Build "technology" TECH_URL]
           (CategoryState.Build [story_v1] false None) [story_v2] eq_refl).
Defined.

Lemma rawArticles0_retained_ok : all_retained_ok rawArticles0.
Proof.
  intros category cs H. apply get_Some_In in H. simpl in H.
  repeat (destruct H as [[= <- <-]|H];
          [split; simpl; [unfold MAX_RETAINED; lia | constructor]|]).
  contradiction.
Qed.

(** C7: every category retains at most ten articles, newest first.  This
    holds initially, every execution of [fetchAllFeeds] preserves it, and
    so it holds after any number of fetch cycles. *)
Theorem retention_cap_invariant :
  all_retained_ok rawArticles0 /\
  (forall w raw, all_retained_ok raw -> all_retained_ok (fetchAllFeeds w raw)) /\
  (forall cycles : list FeedWorld,
      all_retained_ok (fold_left (fun raw w => fetchAllFeeds w raw) cycles rawArticles0)).
Proof.
  pose proof rawArticles0_retained_ok as H0.
  assert (Hstep : forall w raw, all_retained_ok raw -> all_retained_ok (fetchAllFeeds w raw)).
  { intros w raw. apply fetchCategories_retained_ok. }
  split; [exact H0 | split; [exact Hstep|]].
  intros cycles. revert H0. generalize rawArticles0.
  induction cycles as [|w cycles IH]; simpl; intros raw Hraw; [assumption|].
  apply IH, Hstep, Hraw.
Qed.

Lemma retention_cap_invariant_witness :
  all_retained_ok (fetchAllFeeds first_cycle rawArticles0) /\
  all_retained_ok
    (fold_left (fun raw w => fetchAllFeeds w raw) [first_cycle; all_down; second_cycle]
       rawArticles0).
Proof.
  split.
  - exact (proj1 (proj2 retention_cap_invariant) first_cycle rawArticles0
             (proj1 retention_cap_invariant)).
  - exact (proj2 (proj2 retention_cap_invariant) [first_cycle; all_down; second_cycle]).
Defined.

(** C8: in a fetch cycle, a category of which at least one source
    succeeds ends with [lastError] null, whatever the other sources did;
    a category of which every source fails ends with [lastError] set to
    the failure message and with the articles it had. *)
Theorem lastError_tracks_sources w raw category feeds cs :
  has_categories raw ->
  get category feedsByCategory = Some feeds ->
  get category raw = Some cs ->
  exists cs',
    get category (fetchAllFeeds w raw) = Some cs' /\
    (Exists (succeeds w) feeds -> CategoryState.lastError cs' = None) /\
    (Forall (fails w) feeds ->
     CategoryState.lastError cs' = Some ALL_FAILED /\
     CategoryState.articles cs' = CategoryState.articles cs).
Proof.
  intros Hraw Hfeeds Hcs. exists (fetchCategory w feeds cs).
  split; [now apply fetchAllFeeds_get | split].
  - intros Hex. unfold fetchCategory.
    pose proof (@tryFeeds_success w feeds [] false Hex) as Hs.
    destruct (tryFeeds w feeds [] false) as [allArticles ok]. simpl in Hs. subst ok.
    reflexivity.
  - intros Hall. unfold fetchCategory.
    rewrite (@tryFeeds_all_fail w feeds [] false Hall). split; reflexivity.
Qed.

Lemma lastError_tracks_sources_witness :
  (exists cs',
      get "technology" (fetchAllFeeds all_down (fetchAllFeeds first_cycle rawArticles0))
      = Some cs' /\
      CategoryState.lastError cs' = Some ALL_FAILED /\
      CategoryState.articles cs' = [story_v1]) /\
  (exists cs',
      get "technology" (fetchAllFeeds first_cycle rawArticles0) = Some cs' /\
      CategoryState.lastError cs' = None).
Proof.
  split.
  - destruct (@lastError_tracks_sources all_down
                (fetchAllFeeds first_cycle rawArticles0) "technology"
                [Feed.Build "technology" TECH_URL]
                (CategoryState.Build [story_v1] false None) eq_refl eq_refl eq_refl)
      as (cs' & Hget & _ & Hfail).
    exists cs'. split; [exact Hget|]. apply Hfail.
    repeat constructor. exists (Error "ETIMEDOUT"). reflexivity.
  - destruct (@lastError_tracks_sources first_cycle rawArticles0 "technology"
                [Feed.Build "technology" TECH_URL]
                (CategoryState.Build [] false None) eq_refl eq_refl eq_refl)
      as (cs' & Hget & Hok & _).
    exists cs'. split; [exact Hget|]. apply Hok.
    constructor. exists [story_v1]. reflexivity.
Defined.

(** ** The sentiment annotator: claim C3 *)

Lemma member_object fields name : member (JObj fields) name = Ok (read_own name fields).
Proof. unfold member, read_own. destruct (own_property name fields); reflexivity. Qed.

(** The members of a parsed object are copied as they are. *)
Lemma analyzeSentiment_object article fields :
  analyzeSentiment article (Parsed (JObj fields)) =
  Analyzed.Build (Article.title article) (Article.url article)
    (Article.source article) (Article.timestamp article)
    (read_own "summary" fields) (read_own "sentiment" fields)
    (read_own "sentiment_score" fields) (read_own "bias_level" fields)
    (read_own "manipulative_score" fields) (read_own "mood" fields)
    (read_own "bias" fields).
Proof.
  unfold analyzeSentiment, annotate. cbn [bind].
  rewrite !member_object. reflexivity.
Qed.

(** C3, as stated, fails for a schema violation: a reply that parses but
    is not of the requested shape is not replaced by the placeholder; its
    sentiment and score reach the caller as they came. *)
Lemma schema_violation_passes_through :
  Analyzed.overall_sentiment (analyzeSentiment story_v1 off_schema) = JStr "mixed" /\
  Analyzed.sentiment_score (analyzeSentiment story_v1 off_schema) = JStr "high" /\
  Analyzed.bias_level (analyzeSentiment story_v1 off_schema) = JUndefined /\
  analyzeSentiment story_v1 off_schema <> fallback story_v1.
Proof. repeat split; try reflexivity. discriminate. Qed.

(** C3, amended: [analyzeSentiment] is a total function (no exception
    reaches its caller) and always keeps the article's title, url, source
    and timestamp.  When the call is rejected, the reply is malformed, its
    content is not JSON, or it parses to [null], the result is the
    placeholder: neutral sentiment, zero scores, placeholder summary and
    bias text.  A reply that parses to an object is not checked against the
    schema: its members are copied, [undefined] standing for a missing
    one. *)
Theorem analyzeSentiment_degrades article reply :
  let r := analyzeSentiment article reply in
  (Analyzed.title r = Article.title article /\
   Analyzed.url r = Article.url article /\
   Analyzed.source r = Article.source article /\
   Analyzed.timestamp r = Article.timestamp article) /\
  (call_fails reply \/ reply = Parsed JNull ->
   r = fallback article /\
   Analyzed.overall_sentiment r = JStr "neutral" /\
   Analyzed.sentiment_score r = JNum (Fin 0) /\
   Analyzed.bias_level r = JNum (Fin 0) /\
   Analyzed.manipulative_score r = JNum (Fin 0) /\
   Analyzed.summary r = JStr UNAVAILABLE /\
   Analyzed.negative r = JStr UNAVAILABLE) /\
  (forall fields, reply = Parsed (JObj fields) ->
   Analyzed.summary r = read_own "summary" fields /\
   Analyzed.overall_sentiment r = read_own "sentiment" fields /\
   Analyzed.sentiment_score r = read_own "sentiment_score" fields /\
   Analyzed.bias_level r = read_own "bias_level" fields /\
   Analyzed.manipulative_score r = read_own "manipulative_score" fields /\
   Analyzed.positive r = read_own "mood" fields /\
   Analyzed.negative r = read_own "bias" fields).
Proof.
  simpl. split; [|split].
  - destruct reply as [e| |content|v]; try (repeat split; reflexivity).
    destruct v; try (repeat split; reflexivity).
    rewrite analyzeSentiment_object. repeat split; reflexivity.
  - intros [Hfail | ->].
    + destruct reply; simpl in Hfail; try contradiction; repeat split; reflexivity.
    + repeat split; reflexivity.
  - intros fields ->. rewrite analyzeSentiment_object. repeat split; reflexivity.
Qed.

Lemma analyzeSentiment_degrades_witness :
  analyzeSentiment story_v1 (NotJSON "I cannot analyze this article.") = fallback story_v1 /\
  Analyzed.overall_sentiment
    (analyzeSentiment story_v1 (NotJSON "I cannot analyze this article.")) = JStr "neutral" /\
  Analyzed.sentiment_score
    (analyzeSentiment story_v1 (NotJSON "I cannot analyze this article.")) = JNum (Fin 0).
Proof.
  destruct (proj1 (proj2 (analyzeSentiment_degrades story_v1
                            (NotJSON "I cannot analyze this article.")))
              (or_introl I))
    as (Hfb & Hs & Hn & _).
  exact (conj Hfb (conj Hs Hn)).
Defined.

(** ** Numbers *)

Lemma Qlt_bool_iff x y : Qlt_bool x y = true <-> (x < y)%Q.
Proof.
  unfold Qlt_bool. rewrite negb_true_iff, <- not_true_iff_false, Qle_bool_iff.
  split; [apply Qnot_le_lt | apply Qlt_not_le].
Qed.






(** ** The buckets: claim C4 *)

Lemma Array_filter_total {A} (p : A -> result bool) (q : A -> bool) l :
  Forall (fun a => p a = Ok (q a)) l -> Array_filter p l = Ok (filter q l).
Proof.
  induction 1 as [|a l Ha _ IH]; simpl; [reflexivity|].
  rewrite Ha, IH. simpl. destruct (q a); reflexivity.
Qed.

Lemma firstn_kept_and_dropped {A} (R : A -> A -> Prop) n (sorted original : list A) :
  Permutation sorted original ->
  StronglySorted R sorted ->
  List.length (firstn n sorted) = Nat.min n (List.length original) /\
  exists dropped,
    Permutation (firstn n sorted ++ dropped) original /\
    forall x y, In x (firstn n sorted) -> In y dropped -> R x y.
Proof.
  intros Hperm Hsorted. split.
  - rewrite length_firstn. now rewrite (Permutation_length Hperm).
  - exists (skipn n sorted). split.
    + now rewrite firstn_skipn.
    + apply StronglySorted_app_le. now rewrite firstn_skipn.
Qed.

Section BucketFacts.
Context {B : Builtins}.










End BucketFacts.

(** *** Filters that may throw *)

Lemma Array_filter_Ok {A} (p : A -> result bool) l kept :
  Array_filter p l = Ok kept ->
  Forall (fun a => exists b, p a = Ok b) l /\
  forall a, In a kept <-> In a l /\ p a = Ok true.
Proof.
  revert kept. induction l as [|x l IH]; intros kept; cbn [Array_filter].
  - intros [= <-]. split; [constructor|]. simpl. tauto.
  - destruct (p x) as [b|e] eqn:Ex; cbn [bind]; [|discriminate].
    destruct (Array_filter p l) as [rest|e]; cbn [bind]; [|discriminate].
    intros [= <-]. destruct (IH rest eq_refl) as [Hall Hin]. split; [constructor; eauto|].
    intros a. destruct b; simpl; rewrite ?Hin; split.
    + intros [<-|[H1 H2]]; auto.
    + intros [[<-|H1] H2]; auto.
    + intros [H1 H2]; auto.
    + intros [[<-|H1] H2]; [congruence | auto].
Qed.

Lemma Array_filter_Err {A} (p : A -> result bool) l e :
  Array_filter p l = Err e -> Exists (fun a => p a = Err e) l.
Proof.
  induction l as [|x l IH]; cbn [Array_filter]; [discriminate|].
  destruct (p x) as [b|e'] eqn:Ex; cbn [bind].
  - destruct (Array_filter p l) as [rest|e']; cbn [bind]; [discriminate|].
    intros [= <-]. apply Exists_cons_tl. now apply IH.
  - intros [= <-]. now apply Exists_cons_hd.
Qed.

Lemma Array_filter_throws {A} (p : A -> result bool) l :
  Exists (fun a => exists e, p a = Err e) l -> exists e, Array_filter p l = Err e.
Proof.
  induction 1 as [x l [e He]|x l _ [e IH]]; cbn [Array_filter].
  - rewrite He. cbn [bind]. eauto.
  - destruct (p x); cbn [bind]; [|eauto]. rewrite IH. cbn [bind]. eauto.
Qed.

Lemma three_filters_le {A} (p q r : A -> bool) l :
  (forall a, p a = true -> q a = false /\ r a = false) ->
  (forall a, q a = true -> r a = false) ->
  (List.length (filter p l) + List.length (filter q l) + List.length (filter r l)
   <= List.length l)%nat.
Proof.
  intros Hp Hq. induction l as [|a l IH]; simpl; [lia|].
  specialize (Hp a). specialize (Hq a).
  destruct (p a), (q a), (r a); simpl;
    try (destruct (Hp eq_refl); discriminate); try (specialize (Hq eq_refl); discriminate); lia.
Qed.

Lemma three_filters_eq {A} (p q r : A -> bool) l :
  (forall a, p a = true -> q a = false /\ r a = false) ->
  (forall a, q a = true -> r a = false) ->
  Forall (fun a => r a = negb (p a) && negb (q a)) l ->
  (List.length (filter p l) + List.length (filter q l) + List.length (filter r l)
   = List.length l)%nat.
Proof.
  intros Hp Hq Hall. induction Hall as [|a l Ha _ IH]; simpl; [lia|].
  specialize (Hp a). specialize (Hq a).
  destruct (p a), (q a), (r a); simpl in *;
    try (destruct (Hp eq_refl); discriminate); try (specialize (Hq eq_refl); discriminate);
    try discriminate; lia.
Qed.

Lemma filter_none {A} (f : A -> bool) l : (forall a, In a l -> f a = false) -> filter f l = [].
Proof.
  induction l as [|a l IH]; simpl; intros H; [reflexivity|].
  rewrite (H a (or_introl eq_refl)). apply IH. auto.
Qed.

Lemma filter_all {A} (f : A -> bool) l : (forall a, In a l -> f a = true) -> filter f l = l.
Proof.
  induction l as [|a l IH]; simpl; intros H; [reflexivity|].
  rewrite (H a (or_introl eq_refl)). f_equal. apply IH. auto.
Qed.

Section BucketsInGeneral.
Context {B : Builtins}.

Lemma filters_of_coercible a n :
  ToNumber (Analyzed.sentiment_score a) = Ok n ->
  is_positive a = Ok (above a) /\ is_negative a = Ok (below a) /\ is_neutral a = Ok (within a).
Proof.
  intros E. unfold is_positive, is_negative, is_neutral, js_gt, js_lt, js_ge, js_le,
    above, below, within, score.
  rewrite E. cbn [bind]. repeat split.
  destruct (num_le NEG_THRESHOLD n); reflexivity.
Qed.

Lemma filters_of_uncoercible a e :
  ToNumber (Analyzed.sentiment_score a) = Err e ->
  is_positive a = Err e /\ is_negative a = Err e /\ is_neutral a = Err e.
Proof.
  intros E. unfold is_positive, is_negative, is_neutral, js_gt, js_lt, js_ge.
  rewrite E. repeat split.
Qed.

Lemma filter_Err_uncoercible (p : Analyzed.t -> result bool) a e :
  p = is_positive \/ p = is_negative \/ p = is_neutral ->
  p a = Err e -> ToNumber (Analyzed.sentiment_score a) = Err e.
Proof.
  intros Hp Ha. destruct (ToNumber (Analyzed.sentiment_score a)) as [n|e'] eqn:E.
  - destruct (filters_of_coercible a n E) as (H1 & H2 & H3).
    destruct Hp as [ -> | [ -> | -> ] ]; congruence.
  - destruct (filters_of_uncoercible a e' E) as (H1 & H2 & H3).
    destruct Hp as [ -> | [ -> | -> ] ]; congruence.
Qed.

(** The three tests exclude one another. *)
Lemma tests_exclusive a :
  (above a = true -> below a = false /\ within a = false) /\
  (below a = true -> within a = false).
Proof.
  unfold above, below, within, THRESHOLD, NEG_THRESHOLD.
  destruct (score a) as [| |q|]; simpl; try (split; [intros; split|]; congruence).
  split.
  - intros H. apply Qlt_bool_iff in H. split.
    + apply not_true_iff_false. rewrite Qlt_bool_iff. lra.
    + apply andb_false_iff. right. apply not_true_iff_false. rewrite Qle_bool_iff. lra.
  - intros H. apply Qlt_bool_iff in H.
    apply andb_false_iff. left. apply not_true_iff_false. rewrite Qle_bool_iff. lra.
Qed.

Lemma buckets_coercible l :
  Forall (fun a => exists n, ToNumber (Analyzed.sentiment_score a) = Ok n) l ->
  buckets l =
  Ok (Analysis.Build
        (slice0 BUCKET_SIZE (Array_sort descending (filter above l)))
        (slice0 BUCKET_SIZE (Array_sort ascending (filter below l)))
        (slice0 BUCKET_SIZE (filter within l))
        []).
Proof.
  intros H. unfold buckets.
  rewrite (Array_filter_total is_positive above), (Array_filter_total is_negative below),
    (Array_filter_total is_neutral within).
  - reflexivity.
  - eapply Forall_impl; [|exact H]. intros a [n E]. apply (filters_of_coercible a n E).
  - eapply Forall_impl; [|exact H]. intros a [n E]. apply (filters_of_coercible a n E).
  - eapply Forall_impl; [|exact H]. intros a [n E]. apply (filters_of_coercible a n E).
Qed.

Lemma buckets_Ok_coercible l r :
  buckets l = Ok r ->
  Forall (fun a => exists n, ToNumber (Analyzed.sentiment_score a) = Ok n) l.
Proof.
  unfold buckets. destruct (Array_filter is_positive l) as [pos|] eqn:E; [|discriminate].
  intros _. destruct (Array_filter_Ok is_positive l pos E) as [Hall _].
  eapply Forall_impl; [|exact Hall]. intros a [b Hb].
  destruct (ToNumber (Analyzed.sentiment_score a)) as [n|e] eqn:En; [eauto|].
  destruct (filters_of_uncoercible a e En) as [H _]. congruence.
Qed.

Lemma buckets_Ok_form l r :
  buckets l = Ok r ->
  r = Analysis.Build
        (slice0 BUCKET_SIZE (Array_sort descending (filter above l)))
        (slice0 BUCKET_SIZE (Array_sort ascending (filter below l)))
        (slice0 BUCKET_SIZE (filter within l))
        [].
Proof.
  intros H. pose proof (buckets_coercible l (buckets_Ok_coercible l r H)) as E. congruence.
Qed.

Lemma buckets_lengths l r :
  buckets l = Ok r ->
  (List.length (Analysis.positive r) + List.length (Analysis.negative r)
   + List.length (Analysis.neutral r) <= List.length l)%nat.
Proof.
  intros H. rewrite (buckets_Ok_form l r H).
  cbn [Analysis.positive Analysis.negative Analysis.neutral]. unfold slice0.
  pose proof (three_filters_le above below within l
                (fun a => proj1 (tests_exclusive a)) (fun a => proj2 (tests_exclusive a))) as Hsum.
  pose proof (firstn_le_length BUCKET_SIZE (Array_sort descending (filter above l))) as H1.
  pose proof (firstn_le_length BUCKET_SIZE (Array_sort ascending (filter below l))) as H2.
  rewrite !length_firstn.
  rewrite (Permutation_length (Array_sort_perm descending (filter above l))).
  rewrite (Permutation_length (Array_sort_perm ascending (filter below l))).
  lia.
Qed.
End BucketsInGeneral.

Section Buckets.
Context {B : Builtins}.



(** [analyzeArticles] is [buckets] applied to the annotations of the
    category's articles, one per article and in their order. *)
Lemma analyzeArticles_buckets reply raw category cs :
  get category raw = Some cs ->
  CategoryState.articles cs <> [] ->
  analyzeArticles reply raw category =
  buckets (map (fun article => analyzeSentiment article (reply article))
             (CategoryState.articles cs)).
Proof.
  intros Hget Harts. unfold analyzeArticles. rewrite Hget.
  destruct (CategoryState.articles cs); [contradiction | reflexivity].
Qed.

(** Outside the hypothesis of the theorem: an annotation without a
    score ([undefined] reads as NaN) passes none of the three filters. *)
Lemma unscored_article_in_no_bucket article :
  buckets [analyzeSentiment article (Parsed (JObj []))] = Ok (Analysis.Build [] [] [] []).
Proof. reflexivity. Qed.
End Buckets.



(** ** The handler *)

Lemma toLowerCase_idempotent s : toLowerCase (toLowerCase s) = toLowerCase s.
Proof.
  induction s as [|c s IH]; simpl; [reflexivity|]. f_equal; [|exact IH].
  destruct c as [[] [] [] [] [] [] [] []]; reflexivity.
Qed.

Lemma same_letters_toLowerCase s t : same_letters s t <-> toLowerCase s = toLowerCase t.
Proof.
  split.
  - induction 1 as [|c d s t Hcd _ IH]; simpl; congruence.
  - revert t. induction s as [|c s IH]; intros [|d t]; simpl; try discriminate.
    + constructor.
    + intros [= Hcd Hst]. constructor; auto.
Qed.

Lemma entry_of_set category k e cache :
  entry_of category (set k e cache) = if String.eqb category k then e else entry_of category cache.
Proof.
  unfold entry_of. rewrite get_set. destruct (String.eqb category k); reflexivity.
Qed.

Lemma js_in_own {V} k (obj : list (string * V)) v : get k obj = Some v -> js_in k obj = true.
Proof. unfold js_in. now intros ->. Qed.

Lemma fresh_data_Some cache age d :
  fresh_data cache age = Some d <-> CacheEntry.data cache = Some d /\ age < CACHE_DURATION.
Proof.
  unfold fresh_data. destruct (CacheEntry.data cache) as [d'|].
  - destruct (Z.ltb_spec age CACHE_DURATION); split.
    + intros [= ->]. auto.
    + intros [[= ->] _]. reflexivity.
    + discriminate.
    + intros [_ H']. lia.
  - split; [discriminate | intros [? _]; discriminate].
Qed.


Section HandlerFacts.
Context {B : Builtins}.

(** The [try] block for a name that [rawArticles] holds. *)
Lemma try_block_own w category st cs :
  get category (rawArticles st) = Some cs ->
  try_block w category st =
  if CategoryState.isLoading cs then (Ok (Loading category), st)
  else match stored_error cs with
       | Some msg => (Ok (FetchError msg category), st)
       | None =>
           match CategoryState.articles cs with
           | [] => (Ok (NoArticles category), st)
           | _ :: _ => serve w category cs st
           end
       end.
Proof.
  intros H. unfold try_block. rewrite (js_in_own _ _ _ H), H. reflexivity.
Qed.


(** The three ways a request ends: without touching the state and
    without analysis; with a fresh analysis that is stored; with an
    exception from the analysis, after which the entry is reset. *)
Lemma handler_cases w param st :
  let category := toLowerCase param in
  let cache := entry_of category (analysisCache st) in
  (exists r,
      handler w param st = (r, st) /\
      (forall d age left, r = FromCache d age left -> CacheEntry.data cache = Some d) /\
      (forall d, r <> JustAnalyzed d) /\
      (forall msg c, r <> InternalError msg c)) \/
  (exists cs analysis,
      get category (rawArticles st) = Some cs /\
      analyzeArticles (llm w) (rawArticles st) category = Ok analysis /\
      try_block w category st =
      (Ok (JustAnalyzed
             (make_data category (List.length (CategoryState.articles cs)) analysis (updated w))),
       State (rawArticles st)
         (set category
            (CacheEntry.Build (stored w)
               (Some (make_data category (List.length (CategoryState.articles cs)) analysis
                        (updated w)))
               false StartNull)
            (analysisCache (marked w category st))))) \/
  (exists e,
      analyzeArticles (llm w) (rawArticles st) category = Err e /\
      CacheEntry.isAnalyzing cache = false /\
      try_block w category st = (Err e, marked w category st)).
Proof.
  intros category cache. unfold handler. fold category.
  unfold try_block.
  destruct (js_in category (rawArticles st)); simpl;
    [|left; eexists; repeat split; try reflexivity; intros; discriminate].
  destruct (get category (rawArticles st)) as [cs|] eqn:Hget;
    [|left; eexists; repeat split; try reflexivity; intros; discriminate].
  destruct (CategoryState.isLoading cs);
    [left; eexists; repeat split; try reflexivity; intros; discriminate|].
  destruct (stored_error cs);
    [left; eexists; repeat split; try reflexivity; intros; discriminate|].
  destruct (CategoryState.articles cs) as [|a arts] eqn:Harts;
    [left; eexists; repeat split; try reflexivity; intros; discriminate|].
  unfold serve. fold cache.
  destruct (fresh_data cache (now w - CacheEntry.timestamp cache)) as [d|] eqn:Hfresh.
  { left. eexists. repeat split; try reflexivity; try (intros; discriminate).
    intros d' age left Heq.
    apply (f_equal (fun r => match r with FromCache x _ _ => Some x | _ => None end)) in Heq.
    cbv beta iota in Heq. injection Heq as <-. now apply fresh_data_Some in Hfresh. }
  destruct (CacheEntry.isAnalyzing cache) eqn:Hflag;
    [left; eexists; repeat split; try reflexivity; intros; discriminate|].
  unfold fresh_analysis, marked. fold cache. cbn [rawArticles analysisCache].
  destruct (analyzeArticles (llm w) (rawArticles st) category) as [analysis|e] eqn:Han.
  - right; left. exists cs, analysis. rewrite Harts. repeat split; reflexivity.
  - right; right. exists e. repeat split; reflexivity.
Qed.

Lemma clear_flags_marked w category st :
  clear_flags category (marked w category st) =
  State (rawArticles st)
    (set category
       (CacheEntry.Build (CacheEntry.timestamp (entry_of category (analysisCache st)))
          (CacheEntry.data (entry_of category (analysisCache st))) false StartNull)
       (analysisCache (marked w category st))).
Proof.
  unfold clear_flags, marked. simpl. rewrite get_set_eq. reflexivity.
Qed.

(** The handler never writes to [rawArticles]. *)
Lemma handler_rawArticles w param st :
  rawArticles (snd (handler w param st)) = rawArticles st.
Proof.
  destruct (handler_cases w param st) as [(r & H & _)|[(cs & an & _ & _ & H)|(e & _ & _ & H)]].
  - rewrite H. reflexivity.
  - unfold handler. rewrite H. reflexivity.
  - unfold handler. rewrite H, clear_flags_marked. reflexivity.
Qed.

(** No request leaves an entry marked in progress that was not marked
    before. *)
Lemma handler_leaves_no_mark w param st c :
  CacheEntry.isAnalyzing (entry_of c (analysisCache st)) = false ->
  CacheEntry.isAnalyzing (entry_of c (analysisCache (snd (handler w param st)))) = false.
Proof.
  intros Hc.
  destruct (handler_cases w param st) as [(r & H & _)|[(cs & an & _ & _ & H)|(e & _ & _ & H)]].
  - rewrite H. exact Hc.
  - unfold handler. rewrite H. simpl. rewrite !entry_of_set.
    destruct (String.eqb c (toLowerCase param)); [reflexivity | exact Hc].
  - unfold handler. rewrite H, clear_flags_marked. simpl. rewrite !entry_of_set.
    destruct (String.eqb c (toLowerCase param)); [reflexivity | exact Hc].
Qed.
End HandlerFacts.

Section HandlerClaims.
Context {B : Builtins}.

(** *** Claim C1 *)

(** C1, amended: for a known category that is not loading, the handler
    answers 500 with the stored [lastError] message exactly when a message
    is stored: it does so whether or not articles are retained, it leaves
    the state as it is, and without a stored message it never gives that
    answer. *)
Theorem stored_error_answers w param st cs :
  get (toLowerCase param) (rawArticles st) = Some cs ->
  CategoryState.isLoading cs = false ->
  (forall msg,
      CategoryState.lastError cs = Some msg -> truthy msg = true ->
      handler w param st = (FetchError msg (toLowerCase param), st)) /\
  (CategoryState.lastError cs = None ->
   forall msg c, fst (handler w param st) <> FetchError msg c).
Proof.
  intros Hget Hload. split.
  - intros msg Herr Htruthy. unfold handler.
    rewrite (try_block_own _ _ _ _ Hget), Hload.
    unfold stored_error. rewrite Herr, Htruthy. reflexivity.
  - intros Herr msg c. unfold handler.
    rewrite (try_block_own _ _ _ _ Hget), Hload.
    unfold stored_error. rewrite Herr.
    destruct (CategoryState.articles cs); [discriminate|].
    unfold serve, fresh_analysis.
    destruct (fresh_data _ _); [discriminate|].
    destruct (CacheEntry.isAnalyzing _); [discriminate|].
    destruct (analyzeArticles _ _ _); discriminate.
Qed.

(** *** Claim C5 *)


(** *** Claim C6 *)

(** C6: when the [try] block of a request ends with an exception, the
    handler had set [isAnalyzing] for the category and the exception comes
    from the analysis step; the [catch] block answers 500 with the
    exception's message and leaves the entry with [isAnalyzing = false] and
    [analysisStartTime = null], its timestamp and data as they were.  So
    no entry that was not in progress before the request is in progress
    after it. *)
Theorem failed_analysis_clears_flag w param st e mid :
  try_block w (toLowerCase param) st = (Err e, mid) ->
  (CacheEntry.isAnalyzing (entry_of (toLowerCase param) (analysisCache mid)) = true /\
   analyzeArticles (llm w) (rawArticles st) (toLowerCase param) = Err e) /\
  fst (handler w param st) = InternalError (message e) (toLowerCase param) /\
  get (toLowerCase param) (analysisCache (snd (handler w param st))) =
    Some (CacheEntry.Build
            (CacheEntry.timestamp (entry_of (toLowerCase param) (analysisCache st)))
            (CacheEntry.data (entry_of (toLowerCase param) (analysisCache st)))
            false StartNull) /\
  (forall c,
      CacheEntry.isAnalyzing (entry_of c (analysisCache st)) = false ->
      CacheEntry.isAnalyzing (entry_of c (analysisCache (snd (handler w param st)))) = false).
Proof.
  intros Htry.
  assert (Hmid : mid = marked w (toLowerCase param) st /\
                 analyzeArticles (llm w) (rawArticles st) (toLowerCase param) = Err e).
  { destruct (handler_cases w param st)
      as [(r & H & _ & _ & Hno)|[(cs & an & _ & _ & H)|(e' & Han & _ & H)]].
    - unfold handler in H. rewrite Htry in H. injection H as Hr _.
      exfalso. eapply Hno. symmetry. exact Hr.
    - rewrite Htry in H. discriminate.
    - rewrite Htry in H. injection H as He Hm. subst e' mid. auto. }
  destruct Hmid as [-> Han]. split; [split|split; [|split]].
  - unfold marked. cbn [analysisCache]. rewrite entry_of_set, String.eqb_refl. reflexivity.
  - exact Han.
  - unfold handler. rewrite Htry. reflexivity.
  - unfold handler. rewrite Htry, clear_flags_marked. cbn [snd analysisCache].
    apply get_set_eq.
  - intros c. apply handler_leaves_no_mark.
Qed.
End HandlerClaims.

(** ** The response summary: claim C9 *)

Lemma make_data_counts category total analysis updated :
  counts_match (make_data category total analysis updated).
Proof. repeat split. Qed.

Section SummaryFacts.
Context {B : Builtins}.

Lemma buckets_capped l r :
  buckets l = Ok r ->
  (List.length (Analysis.positive r) <= BUCKET_SIZE)%nat /\
  (List.length (Analysis.negative r) <= BUCKET_SIZE)%nat /\
  (List.length (Analysis.neutral r) <= BUCKET_SIZE)%nat.
Proof.
  unfold buckets.
  destruct (Array_filter is_positive l) as [pos|]; [|discriminate].
  destruct (Array_filter is_negative l) as [neg|]; [|discriminate].
  destruct (Array_filter is_neutral l) as [neu|]; [|discriminate].
  cbn [bind]. intros [= <-]. split; [|split].
  - exact (firstn_le_length BUCKET_SIZE (Array_sort descending pos)).
  - exact (firstn_le_length BUCKET_SIZE (Array_sort ascending neg)).
  - exact (firstn_le_length BUCKET_SIZE neu).
Qed.

Lemma analyzeArticles_capped reply raw category analysis :
  analyzeArticles reply raw category = Ok analysis ->
  (List.length (Analysis.positive analysis) <= BUCKET_SIZE)%nat /\
  (List.length (Analysis.negative analysis) <= BUCKET_SIZE)%nat /\
  (List.length (Analysis.neutral analysis) <= BUCKET_SIZE)%nat.
Proof.
  unfold analyzeArticles. destruct (get category raw) as [cs|].
  - destruct (CategoryState.articles cs).
    + intros [= <-]. unfold BUCKET_SIZE. simpl. lia.
    + apply buckets_capped.
  - destruct (existsb _ _); [|discriminate].
    intros [= <-]. unfold BUCKET_SIZE. simpl. lia.
Qed.

Lemma entry_of_ok st c d :
  cache_ok st -> CacheEntry.data (entry_of c (analysisCache st)) = Some d ->
  counts_match d /\ capped d.
Proof.
  intros Hok. unfold entry_of.
  destruct (get c (analysisCache st)) as [e|] eqn:E; [apply (Hok c e d E) | discriminate].
Qed.

Lemma handler_cache_ok w param st : cache_ok st -> cache_ok (snd (handler w param st)).
Proof.
  intros Hok.
  destruct (handler_cases w param st)
    as [(r & H & _)|[(cs & an & _ & Han & H)|(e & _ & _ & H)]].
  - rewrite H. exact Hok.
  - unfold handler. rewrite H. cbn [snd]. intros c e d. cbn [analysisCache marked].
    rewrite !get_set. destruct (String.eqb c (toLowerCase param)).
    + intros [= <-]. cbn [CacheEntry.data]. intros [= <-].
      split; [apply make_data_counts | exact (analyzeArticles_capped _ _ _ _ Han)].
    + apply Hok.
  - unfold handler. rewrite H, clear_flags_marked. cbn [snd]. intros c e' d.
    cbn [analysisCache marked]. rewrite !get_set.
    destruct (String.eqb c (toLowerCase param)).
    + intros [= <-]. cbn [CacheEntry.data]. now apply entry_of_ok.
    + apply Hok.
Qed.

Lemma reachable_cache_ok st : reachable st -> cache_ok st.
Proof.
  induction 1 as [|w st _ IH|w param st _ IH].
  - intros c e d H. apply get_Some_In in H. simpl in H.
    repeat (destruct H as [[= <- <-]|H]; [discriminate|]). contradiction.
  - exact IH.
  - now apply handler_cache_ok.
Qed.

Lemma reachable_has_categories st : reachable st -> has_categories (rawArticles st).
Proof.
  induction 1 as [|w st _ IH|w param st _ IH].
  - reflexivity.
  - unfold has_categories, fetchAllFeeds. cbn [rawArticles].
    now rewrite fetchCategories_keys.
  - now rewrite handler_rawArticles.
Qed.

Lemma reachable_all_retained_ok st : reachable st -> all_retained_ok (rawArticles st).
Proof.
  induction 1 as [|w st _ IH|w param st _ IH].
  - apply rawArticles0_retained_ok.
  - cbn [rawArticles]. now apply fetchCategories_retained_ok.
  - now rewrite handler_rawArticles.
Qed.

(** C9: in every 200 response of a run of the server, from the cache or
    fresh, the three counts of the summary are the lengths of the three
    lists, [analyzed_articles] is their sum, and no list is longer than
    five.  The sum can therefore fall short of [total_articles] and of the
    number of articles annotated: with six retained articles that all get
    the placeholder annotation, six are annotated, [total_articles] is six
    and [analyzed_articles] is five. *)
Theorem summary_counts_match :
  (forall st w param data from_cache,
      reachable st ->
      body (fst (handler w param st)) = Some (data, from_cache) ->
      counts_match data /\ capped data) /\
  (exists w data cs,
      reachable with_six_stories /\
      get "technology" (rawArticles with_six_stories) = Some cs /\
      List.length (map (fun a => analyzeSentiment a (llm w a)) (CategoryState.articles cs))
        = 6%nat /\
      handler w "technology" with_six_stories
        = (JustAnalyzed data, snd (handler w "technology" with_six_stories)) /\
      Summary.total_articles (Data.summary data) = 6%nat /\
      Summary.analyzed_articles (Data.summary data) = 5%nat).
Proof.
  split.
  - intros st w param data from_cache Hreach Hbody.
    pose proof (reachable_cache_ok st Hreach) as Hok.
    destruct (handler_cases w param st)
      as [(r & H & Hcached & Hnot & _)|[(cs & an & _ & Han & H)|(e & _ & _ & H)]].
    + rewrite H in Hbody. cbn [fst] in Hbody.
      destruct r as [| | | |d age left| |d|]; try discriminate.
      * injection Hbody as -> _.
        apply (entry_of_ok st (toLowerCase param)); [exact Hok|].
        eapply Hcached. reflexivity.
      * exfalso. apply (Hnot d). reflexivity.
    + unfold handler in Hbody. rewrite H in Hbody. injection Hbody as <- _.
      split; [apply make_data_counts | exact (analyzeArticles_capped _ _ _ _ Han)].
    + unfold handler in Hbody. rewrite H in Hbody. discriminate.
  - exists (request_at 1000000 (Rejected (Error "ECONNRESET"))).
    eexists. eexists. split; [|split; [|split; [|split; [|split]]]].
    + exact (@reach_fetch B six_stories initial_state (@reach_initial B)).
    + vm_compute. reflexivity.
    + vm_compute. reflexivity.
    + vm_compute. reflexivity.
    + vm_compute. reflexivity.
    + vm_compute. reflexivity.
Qed.

(** *** Claim C10 *)

(** The handler sees its route parameter only through [toLowerCase]:
    parameters that differ only in letter case get the same treatment. *)
Lemma handler_ignores_case w p q st :
  same_letters p q -> handler w p st = handler w q st.
Proof.
  intros H. apply same_letters_toLowerCase in H. unfold handler. now rewrite H.
Qed.

(** Of the names every object inherits, only two are spelled without
    capitals and can be what [toLowerCase] returns. *)
Lemma inherited_lowercase_names category :
  toLowerCase category = category ->
  In category Object_prototype ->
  category = "constructor" \/ category = "__proto__".
Proof.
  intros Hlow HIn. simpl in HIn.
  repeat (destruct HIn as [<-|HIn]; [first [now left | now right | discriminate Hlow]|]).
  contradiction.
Qed.

(** A name that, lowercased, is neither a category nor one of the two
    inherited names is answered 404 with the list of categories. *)
Lemma unknown_name_rejected w param st :
  has_categories (rawArticles st) ->
  ~ In (toLowerCase param) (keys (rawArticles st)) ->
  toLowerCase param <> "constructor" ->
  toLowerCase param <> "__proto__" ->
  handler w param st =
  (CategoryNotFound ["breaking"; "technology"; "business"; "science"; "health"], st).
Proof.
  intros Hcat Hnot Hc Hp. unfold handler, try_block, js_in.
  rewrite (proj2 (get_None_keys _ _) Hnot).
  destruct (existsb (String.eqb (toLowerCase param)) Object_prototype) eqn:E.
  - apply existsb_exists in E. destruct E as (n & HIn & En).
    apply String.eqb_eq in En. subst n.
    destruct (inherited_lowercase_names _ (toLowerCase_idempotent param) HIn); contradiction.
  - simpl. now rewrite Hcat.
Qed.

(** C10, the failing case: [constructor] is not a category, yet
    [category in rawArticles] holds for it because every object inherits
    that name; the handler goes on and answers 404 "No articles
    available" instead of the 404 that lists the valid categories. *)
Theorem inherited_name_is_not_rejected w st :
  has_categories (rawArticles st) ->
  ~ In (toLowerCase "constructor") (keys (rawArticles st)) /\
  handler w "constructor" st = (NoArticles "constructor", st) /\
  handler w "__proto__" st = (NoArticles "__proto__", st).
Proof.
  intros Hcat.
  assert (Hc : ~ In "constructor" (keys (rawArticles st))).
  { rewrite Hcat. simpl. intuition discriminate. }
  assert (Hp : ~ In "__proto__" (keys (rawArticles st))).
  { rewrite Hcat. simpl. intuition discriminate. }
  split; [exact Hc | split].
  - unfold handler, try_block, js_in.
    change (toLowerCase "constructor") with "constructor".
    rewrite (proj2 (get_None_keys _ _) Hc). reflexivity.
  - unfold handler, try_block, js_in.
    change (toLowerCase "__proto__") with "__proto__".
    rewrite (proj2 (get_None_keys _ _) Hp). reflexivity.
Qed.
End SummaryFacts.

(** ** The claims on the scenarios *)

(** Proves the first premise of [H] with the tactic that follows. *)
Ltac premise H :=
  match type of H with
  | ?P -> _ => let h := fresh in assert (h : P); [|specialize (H h); clear h]
  end.

(** C1, as stated, fails: after a cycle that fetched the story and a
    cycle in which every feed was down, the category has both a stored
    error and a retained article, and the request is answered 500 with the
    stored message. *)
Lemma stored_error_answers_despite_articles :
  option_map CategoryState.articles (get "technology" (rawArticles story_and_error))
    = Some [story_v1] /\
  option_map CategoryState.lastError (get "technology" (rawArticles story_and_error))
    = Some (Some ALL_FAILED) /\
  handler (B := scenario_builtins) (request_at 1000000 good_reply) "technology" story_and_error
    = (FetchError ALL_FAILED "technology", story_and_error) /\
  status (FetchError ALL_FAILED "technology") = 500.
Proof. vm_compute. repeat split; reflexivity. Qed.

Lemma stored_error_answers_witness :
  handler (B := scenario_builtins) (request_at 1000000 good_reply) "Technology" story_and_error
    = (FetchError ALL_FAILED "technology", story_and_error) /\
  (forall msg c,
      fst (handler (B := scenario_builtins) (request_at 1000000 good_reply) "Technology"
             with_story) <> FetchError msg c).
Proof.
  split.
  - exact (proj1 (stored_error_answers (B := scenario_builtins)
                    (request_at 1000000 good_reply) "Technology" story_and_error
                    (CategoryState.Build [story_v1] false (Some ALL_FAILED))
                    ltac:(vm_compute; reflexivity) eq_refl)
             ALL_FAILED eq_refl eq_refl).
  - exact (proj2 (stored_error_answers (B := scenario_builtins)
                    (request_at 1000000 good_reply) "Technology" with_story
                    (CategoryState.Build [story_v1] false None)
                    ltac:(vm_compute; reflexivity) eq_refl)
             eq_refl).
Defined.



Lemma failed_analysis_clears_flag_witness :
  let w := request_at 1000000 unreadable_score in
  fst (handler (B := scenario_builtins) w "technology" with_story)
    = InternalError "Cannot convert object to primitive value" "technology" /\
  get "technology"
    (analysisCache (snd (handler (B := scenario_builtins) w "technology" with_story)))
    = Some (CacheEntry.Build 0 None false StartNull) /\
  CacheEntry.isAnalyzing
    (entry_of "technology" (analysisCache (marked w "technology" with_story))) = true.
Proof.
  intros w.
  destruct (failed_analysis_clears_flag (B := scenario_builtins) w "technology" with_story
              (Error "Cannot convert object to primitive value")
              (marked w "technology" with_story) ltac:(vm_compute; reflexivity))
    as ((Hflag & _) & Hresp & Hentry & _).
  exact (conj Hresp (conj Hentry Hflag)).
Defined.

Lemma summary_counts_match_witness :
  exists data,
    body (fst (handler (B := scenario_builtins) (request_at 1000000 good_reply) "technology"
                 with_six_stories))
      = Some (data, false) /\
    Summary.total_articles (Data.summary data) = 6%nat /\
    counts_match data /\ capped data.
Proof.
  eexists. split; [vm_compute; reflexivity|]. split; [reflexivity|].
  apply (proj1 (summary_counts_match (B := scenario_builtins)) with_six_stories
           (request_at 1000000 good_reply) "technology" _ false).
  - exact (@reach_fetch scenario_builtins six_stories initial_state
             (@reach_initial scenario_builtins)).
  - vm_compute. reflexivity.
Defined.

Lemma inherited_name_is_not_rejected_witness :
  handler (B := scenario_builtins) (request_at 1000000 good_reply) "constructor" initial_state
    = (NoArticles "constructor", initial_state) /\
  status (NoArticles "constructor") = 404 /\
  ~ In "constructor" ["breaking"; "technology"; "business"; "science"; "health"].
Proof.
  destruct (inherited_name_is_not_rejected (B := scenario_builtins)
              (request_at 1000000 good_reply) initial_state ltac:(vm_compute; reflexivity))
    as (Hnot & Hresp & _).
  exact (conj Hresp (conj eq_refl Hnot)).
Defined.

(* ================================================================== *)
(** * Part III: further properties of the code *)
(* ================================================================== *)

(** ** [fetchWithRetry] *)

Lemma retry_loop_outcome parse r a :
  match retry_loop parse a (S r) with
  | Ok (Some d) =>
      exists k, (k <= r)%nat /\ parse (a + k)%nat = Ok d /\
                forall j, (j < k)%nat -> exists e, parse (a + j)%nat = Err e
  | Ok None => False
  | Err e =>
      parse (a + r)%nat = Err e /\
      forall j, (j <= r)%nat -> exists e', parse (a + j)%nat = Err e'
  end.
Proof.
  revert a. induction r as [|r IH]; intros a.
  - simpl. destruct (parse a) as [d|e] eqn:E.
    + exists 0%nat. rewrite Nat.add_0_r. repeat split; auto. intros j Hj. lia.
    + rewrite Nat.add_0_r. split; [exact E|]. intros j Hj.
      replace j with 0%nat by lia. rewrite Nat.add_0_r. eauto.
  - change (retry_loop parse a (S (S r)))
      with (match parse a with
            | Ok feedData => Ok (Some feedData)
            | Err _ => retry_loop parse (S a) (S r)
            end).
    destruct (parse a) as [d|e] eqn:E.
    + exists 0%nat. rewrite Nat.add_0_r. repeat split; auto; [lia|]. intros j Hj. lia.
    + specialize (IH (S a)). destruct (retry_loop parse (S a) (S r)) as [[d|]|e'].
      * destruct IH as (k & Hk & Hd & Hbefore). exists (S k).
        rewrite Nat.add_succ_r. repeat split; [lia | exact Hd |].
        intros [|j] Hj; [rewrite Nat.add_0_r; eauto|].
        rewrite Nat.add_succ_r. apply Hbefore. lia.
      * exact IH.
      * destruct IH as (Hlast & Hall). rewrite Nat.add_succ_r. split; [exact Hlast|].
        intros [|j] Hj; [rewrite Nat.add_0_r; eauto|].
        rewrite Nat.add_succ_r. apply Hall. lia.
Qed.

(** X1: with at least one attempt allowed, [fetchWithRetry] returns the
    data of the first attempt that succeeds among the first [maxRetries],
    and throws, with the error of the last attempt, exactly when all of
    them fail; it never returns [undefined]. *)
Theorem fetchWithRetry_outcome w feed maxRetries :
  (1 <= maxRetries)%nat ->
  (forall d,
      fetchWithRetry w feed maxRetries = Ok (Some d) <->
      exists k, (1 <= k <= maxRetries)%nat /\
                parseURL w (Feed.url feed) k = Ok d /\
                forall j, (1 <= j < k)%nat -> exists e, parseURL w (Feed.url feed) j = Err e) /\
  (forall e,
      fetchWithRetry w feed maxRetries = Err e <->
      parseURL w (Feed.url feed) maxRetries = Err e /\
      forall j, (1 <= j <= maxRetries)%nat ->
                exists e', parseURL w (Feed.url feed) j = Err e') /\
  fetchWithRetry w feed maxRetries <> Ok None.
Proof.
  intros Hmax. destruct maxRetries as [|r]; [lia|]. unfold fetchWithRetry.
  pose proof (retry_loop_outcome (parseURL w (Feed.url feed)) r 1) as H.
  set (parse := parseURL w (Feed.url feed)) in *.
  destruct (retry_loop parse 1 (S r)) as [[d0|]|e0]; [| contradiction |].
  - destruct H as (k & Hk & Hd & Hbefore). split; [|split].
    + intros d. split.
      * intros [= <-]. exists (S k). simpl in Hd. repeat split; [lia | lia | exact Hd |].
        intros j Hj. destruct j as [|j]; [lia|]. apply (Hbefore j). lia.
      * intros (k' & Hk' & Hd' & Hbefore'). destruct k' as [|k']; [lia|].
        destruct (Nat.lt_trichotomy k k') as [Hlt|[->|Hgt]].
        -- destruct (Hbefore' (S k) ltac:(lia)) as [e He]. simpl in Hd. congruence.
        -- simpl in Hd. congruence.
        -- destruct (Hbefore k' Hgt) as [e He]. simpl in He. congruence.
    + intros e. split; [discriminate|]. intros [_ Hall].
      destruct (Hall (S k) ltac:(lia)) as [e' He']. simpl in Hd. congruence.
    + discriminate.
  - destruct H as (Hlast & Hall). split; [|split].
    + intros d. split; [discriminate|]. intros (k & Hk & Hd & _).
      destruct k as [|k]; [lia|]. destruct (Hall k ltac:(lia)) as [e' He'].
      simpl in He'. congruence.
    + intros e. simpl in Hlast. split.
      * intros [= <-]. split; [exact Hlast|]. intros j Hj.
        destruct j as [|j]; [lia|]. apply (Hall j). lia.
      * intros [He _]. congruence.
    + discriminate.
Qed.

Lemma fetchWithRetry_outcome_witness :
  fetchWithRetry first_cycle (Feed.Build "technology" TECH_URL) 3
    = Ok (Some (FeedData.Build (Some "TOI Tech") [item_at "https://toi/story" "Launch" 5000])) /\
  fetchWithRetry all_down (Feed.Build "technology" TECH_URL) 3 = Err (Error "ETIMEDOUT").
Proof.
  pose proof (fetchWithRetry_outcome first_cycle (Feed.Build "technology" TECH_URL) 3
                ltac:(lia)) as (Hok & _ & _).
  pose proof (fetchWithRetry_outcome all_down (Feed.Build "technology" TECH_URL) 3
                ltac:(lia)) as (_ & Herr & _).
  split.
  - apply Hok. exists 1%nat. repeat split; [lia | lia |]. intros j Hj. lia.
  - apply Herr. split; [reflexivity|]. intros j _. eexists. reflexivity.
Defined.

(** ** One feed *)

Lemma map_items_dated w feed feedData items i :
  Forall (fun item => Item.pubDate item <> Some InvalidDate) items ->
  exists arts,
    map_items (toArticle w feed feedData) i items = Ok arts /\
    map Article.url arts = map Item.link items /\
    Forall (fun a => Article.category a = Feed.category feed) arts.
Proof.
  intros H. revert i. induction H as [|item items Hitem _ IH]; intros i.
  - exists []. repeat split. constructor.
  - destruct (IH (S i)) as (arts & Harts & Hurls & Hcat).
    cbn [map_items]. unfold toArticle at 1, item_timestamp.
    destruct (Item.pubDate item) as [[|ms]|]; [congruence| |];
      cbn [bind]; rewrite Harts; cbn [bind];
      eexists; (split; [reflexivity|]); (split; [simpl; f_equal; exact Hurls|]);
      constructor; auto.
Qed.

Lemma map_items_invalid w feed feedData items i :
  Exists (fun item => Item.pubDate item = Some InvalidDate) items ->
  exists e, map_items (toArticle w feed feedData) i items = Err e.
Proof.
  intros H. revert i. induction H as [item items Hitem|item items _ IH]; intros i.
  - cbn [map_items]. unfold toArticle at 1, item_timestamp. rewrite Hitem. cbn [bind]. eauto.
  - cbn [map_items]. destruct (toArticle w feed feedData i item) as [a|e]; cbn [bind]; [|eauto].
    destruct (IH (S i)) as [e ->]. cbn [bind]. eauto.
Qed.

(** X2: a feed whose data arrived is taken whole or not at all.  When no
    item carries an invalid date, the source succeeds with one article per
    item, in the order of the items, each with the item's link as url and
    the feed's category; a single item with an invalid date makes the
    source fail, so that none of its items is taken. *)
Theorem processFeed_all_or_nothing w feed feedData :
  fetchWithRetry w feed 3 = Ok (Some feedData) ->
  (Forall (fun item => Item.pubDate item <> Some InvalidDate) (FeedData.items feedData) ->
   exists arts,
     processFeed w feed = Ok arts /\
     map Article.url arts = map Item.link (FeedData.items feedData) /\
     Forall (fun a => Article.category a = Feed.category feed) arts) /\
  (Exists (fun item => Item.pubDate item = Some InvalidDate) (FeedData.items feedData) ->
   fails w feed).
Proof.
  intros Hfetch. unfold fails, processFeed. rewrite Hfetch. cbn [bind]. split.
  - apply map_items_dated.
  - apply map_items_invalid.
Qed.

Lemma processFeed_all_or_nothing_witness :
  processFeed first_cycle (Feed.Build "technology" TECH_URL) = Ok [story_v1] /\
  fails one_bad_date (Feed.Build "technology" TECH_URL).
Proof.
  split.
  - destruct (proj1 (processFeed_all_or_nothing first_cycle (Feed.Build "technology" TECH_URL)
                       (FeedData.Build (Some "TOI Tech")
                          [item_at "https://toi/story" "Launch" 5000])
                       eq_refl))
      as (arts & Harts & _).
    + repeat constructor. discriminate.
    + rewrite Harts. vm_compute in Harts. injection Harts as <-. reflexivity.
  - apply (proj2 (processFeed_all_or_nothing one_bad_date (Feed.Build "technology" TECH_URL)
                    (FeedData.Build (Some "TOI Tech")
                       [item_at "https://toi/story" "Launch" 5000; bad_date_item])
                    eq_refl)).
    apply Exists_cons_tl. apply Exists_cons_hd. reflexivity.
Defined.

(** ** What is retained *)

Lemma uniqueArticles_incl a l : In a (uniqueArticles l) -> In a l.
Proof.
  intros H. apply In_uniqueArticles in H. now apply last_seen_Some in H.
Qed.

Lemma retain_incl a existing fresh :
  In a (retain existing fresh) -> In a (existing ++ fresh).
Proof.
  intros H. apply retain_In in H. now apply last_seen_Some in H.
Qed.

Lemma retain_kept_and_dropped existing fresh :
  List.length (retain existing fresh)
    = Nat.min MAX_RETAINED (List.length (uniqueArticles (existing ++ fresh))) /\
  exists dropped,
    Permutation (retain existing fresh ++ dropped) (uniqueArticles (existing ++ fresh)) /\
    forall kept cut, In kept (retain existing fresh) -> In cut dropped -> not_older kept cut.
Proof.
  exact (firstn_kept_and_dropped not_older MAX_RETAINED
           (Array_sort newest_first (uniqueArticles (existing ++ fresh)))
           (uniqueArticles (existing ++ fresh))
           (Array_sort_perm newest_first _)
           (sort_newest_first_sorted _)).
Qed.

(** X3: of the deduplicated articles a successful cycle keeps the ten
    most recent: the retained list and the articles cut off are together
    a rearrangement of the deduplicated list, no article cut off is more
    recent than a retained one, and every retained article comes from the
    existing or the newly fetched ones. *)
Theorem retain_keeps_newest existing fresh :
  List.length (retain existing fresh)
    = Nat.min MAX_RETAINED (List.length (uniqueArticles (existing ++ fresh))) /\
  (forall a, In a (retain existing fresh) -> In a (existing ++ fresh)) /\
  exists dropped,
    Permutation (retain existing fresh ++ dropped) (uniqueArticles (existing ++ fresh)) /\
    forall kept cut,
      In kept (retain existing fresh) -> In cut dropped ->
      Article.timestamp cut <= Article.timestamp kept.
Proof.
  destruct (retain_kept_and_dropped existing fresh) as (Hlen & dropped & Hperm & Horder).
  split; [exact Hlen | split].
  - intros a. apply retain_incl.
  - exists dropped. split; [exact Hperm | exact Horder].
Qed.

Lemma retain_nonempty existing fresh : existing <> [] -> retain existing fresh <> [].
Proof.
  intros Hne Hempty.
  pose proof (proj1 (retain_kept_and_dropped existing fresh)) as Hlen.
  rewrite Hempty in Hlen. simpl in Hlen.
  destruct existing as [|a existing]; [contradiction|].
  pose proof (uniqueArticles_covers a ((a :: existing) ++ fresh) (or_introl eq_refl)) as HIn.
  destruct (uniqueArticles ((a :: existing) ++ fresh)); [contradiction|].
  unfold MAX_RETAINED in Hlen. simpl in Hlen. discriminate.
Qed.

(** ** Invariants of [rawArticles], also inside a fetch cycle *)

Lemma processFeed_category w feed arts :
  processFeed w feed = Ok arts ->
  Forall (fun a => Article.category a = Feed.category feed) arts.
Proof.
  unfold processFeed. destruct (fetchWithRetry w feed 3) as [[feedData|]|e]; cbn [bind];
    try discriminate.
  generalize 0%nat. generalize (FeedData.items feedData).
  intros items. revert arts. induction items as [|item items IH]; intros arts i; cbn [map_items].
  - intros [= <-]. constructor.
  - destruct (toArticle w feed feedData i item) as [a|e] eqn:Ea; cbn [bind]; [|discriminate].
    destruct (map_items (toArticle w feed feedData) (S i) items) as [others|e] eqn:Eo;
      cbn [bind]; [|discriminate].
    intros [= <-]. constructor; [|now apply (IH others (S i))].
    unfold toArticle in Ea. destruct (item_timestamp _ item); cbn [bind] in Ea; [|discriminate].
    injection Ea as <-. reflexivity.
Qed.

Lemma tryFeeds_category w category feeds allArticles categorySuccess :
  Forall (fun feed => Feed.category feed = category) feeds ->
  Forall (fun a => Article.category a = category) allArticles ->
  Forall (fun a => Article.category a = category)
         (fst (tryFeeds w feeds allArticles categorySuccess)).
Proof.
  intros Hfeeds. revert allArticles categorySuccess.
  induction Hfeeds as [|feed feeds Hfeed _ IH]; intros allArticles categorySuccess Hall; simpl.
  - exact Hall.
  - destruct (processFeed w feed) as [newArticles|e] eqn:E; apply IH; [|exact Hall].
    apply Forall_app. split; [exact Hall|].
    apply processFeed_category in E. rewrite Hfeed in E. exact E.
Qed.

Lemma fetchCategory_sound w category feeds cs :
  Forall (fun feed => Feed.category feed = category) feeds ->
  category_sound category cs ->
  category_sound category (fetchCategory w feeds cs).
Proof.
  intros Hfeeds (Hnd & Hcat & _ & Hok).
  pose proof (fetchCategory_retained_ok w feeds cs Hok) as Hok'. revert Hok'.
  unfold fetchCategory.
  pose proof (tryFeeds_category w category feeds [] false Hfeeds (Forall_nil _)) as Hnew.
  destruct (tryFeeds w feeds [] false) as [allArticles [|]]; cbn [fst] in Hnew;
    unfold category_sound; cbn [CategoryState.articles CategoryState.lastError]; intros Hok'.
  - split; [apply retain_NoDup | split; [|split; [now left | exact Hok']]].
    apply Forall_forall. intros a Ha. apply retain_incl in Ha.
    apply in_app_or in Ha. rewrite Forall_forall in Hcat, Hnew. destruct Ha; auto.
  - repeat split; auto; apply Hok'.
Qed.

Lemma feedsByCategory_tagged :
  Forall (fun entry => Forall (fun feed => Feed.category feed = fst entry) (snd entry))
         feedsByCategory.
Proof. repeat constructor. Qed.

Lemma observed_sound raw :
  observed raw ->
  forall category cs, get category raw = Some cs -> category_sound category cs.
Proof.
  induction 1 as [|raw c feeds cs0 _ IH Hentry Hget|w raw c feeds cs0 _ IH Hentry Hget];
    intros category cs.
  - intros H. apply get_Some_In in H. simpl in H.
    repeat (destruct H as [[= <- <-]|H];
            [repeat split; simpl; auto; try constructor; unfold MAX_RETAINED; lia|]).
    contradiction.
  - rewrite get_set. destruct (String.eqb_spec category c) as [->|_]; [|apply IH].
    intros [= <-]. destruct (IH c cs0 Hget) as (Hnd & Hcat & _ & Hok).
    repeat split; auto; apply Hok.
  - rewrite get_set. destruct (String.eqb_spec category c) as [->|_]; [|apply IH].
    intros [= <-]. apply fetchCategory_sound; [|now apply IH].
    exact (proj1 (Forall_forall _ _) feedsByCategory_tagged (c, feeds) Hentry).
Qed.

(** A whole cycle is a sequence of finished categories. *)
Lemma fetchCategories_observed w entries raw :
  (forall entry, In entry entries -> In entry feedsByCategory) ->
  observed raw -> observed (fetchCategories w entries raw).
Proof.
  revert raw. induction entries as [|[c feeds] entries IH]; intros raw Hsub Hraw;
    cbn [fetchCategories]; [exact Hraw|].
  destruct (get c raw) as [cs|] eqn:Hget; [|exact Hraw].
  apply IH; [intros entry HIn; apply Hsub; now right|].
  apply (@observed_end w raw c feeds cs Hraw); [apply Hsub; now left | exact Hget].
Qed.

Section RunInvariants.
Context {B : Builtins}.

(** X4: whatever a request finds in [rawArticles], between the steps of
    a run of the server or in the middle of a fetch cycle, the articles
    retained for a category have pairwise distinct urls, all carry that
    category's name, are at most ten and are in descending order of
    timestamp, and the category's [lastError] is either null or the one
    failure message. *)
Theorem observed_wellformed :
  (forall st, reachable st -> observed (rawArticles st)) /\
  (forall raw category cs,
      observed raw ->
      get category raw = Some cs ->
      NoDup (map Article.url (CategoryState.articles cs)) /\
      Forall (fun a => Article.category a = category) (CategoryState.articles cs) /\
      (CategoryState.lastError cs = None \/ CategoryState.lastError cs = Some ALL_FAILED) /\
      (List.length (CategoryState.articles cs) <= 10)%nat /\
      StronglySorted not_older (CategoryState.articles cs)).
Proof.
  split.
  - induction 1 as [|w st _ IH|w param st _ IH].
    + exact observed_initial.
    + cbn [rawArticles]. apply fetchCategories_observed; [auto | exact IH].
    + rewrite handler_rawArticles. exact IH.
  - intros raw category cs Hraw Hget.
    destruct (observed_sound raw Hraw category cs Hget) as (Hnd & Hcat & Herr & Hlen & Hsorted).
    auto.
Qed.
End RunInvariants.

Lemma observed_wellformed_witness :
  let loading :=
    set "technology" (CategoryState.Build [story_v1] true None) (rawArticles with_story) in
  get "technology" loading = Some (CategoryState.Build [story_v1] true None) /\
  NoDup (map Article.url [story_v1]) /\
  Forall (fun a => Article.category a = "technology") [story_v1].
Proof.
  intros loading. split; [vm_compute; reflexivity|].
  destruct (observed_wellformed (B := scenario_builtins)) as [Hrun Hsound].
  destruct (Hsound loading "technology" (CategoryState.Build [story_v1] true None))
    as (Hnd & Hcat & _).
  - apply (@observed_begin (rawArticles with_story) "technology"
             [Feed.Build "technology" TECH_URL] (CategoryState.Build [story_v1] false None)).
    + apply (Hrun with_story).
      exact (@reach_fetch scenario_builtins first_cycle initial_state
               (@reach_initial scenario_builtins)).
    + right. left. reflexivity.
    + vm_compute. reflexivity.
  - vm_compute. reflexivity.
  - exact (conj Hnd Hcat).
Defined.

(** ** Grouping the feeds *)

Lemma group_step_under acc feed category :
  grouped_under category (group_step acc feed) =
  grouped_under category acc
    ++ (if String.eqb (Feed.category feed) category then [feed] else []).
Proof.
  unfold grouped_under, group_step.
  destruct (get (Feed.category feed) acc) as [fs|] eqn:E; rewrite get_set;
    rewrite (String.eqb_sym category);
    destruct (String.eqb_spec (Feed.category feed) category) as [<-|Hne];
    try rewrite E; try reflexivity; now rewrite app_nil_r.
Qed.

Lemma group_fold_under feeds acc category :
  grouped_under category (fold_left group_step feeds acc) =
  grouped_under category acc
    ++ filter (fun feed => String.eqb (Feed.category feed) category) feeds.
Proof.
  revert acc. induction feeds as [|feed feeds IH]; intros acc; simpl.
  - now rewrite app_nil_r.
  - rewrite IH, group_step_under, <- app_assoc.
    destruct (String.eqb (Feed.category feed) category); reflexivity.
Qed.

Lemma group_step_nonempty acc feed :
  Forall (fun entry => snd entry <> []) acc ->
  Forall (fun entry => snd entry <> []) (group_step acc feed).
Proof.
  intros H. unfold group_step.
  destruct (get (Feed.category feed) acc); apply Forall_set; auto; simpl.
  - intros E. now apply app_eq_nil in E as [_ E].
  - discriminate.
Qed.

Lemma group_fold_facts feeds acc :
  Forall (fun entry => snd entry <> []) acc -> NoDup (keys acc) ->
  Forall (fun entry => snd entry <> []) (fold_left group_step feeds acc) /\
  NoDup (keys (fold_left group_step feeds acc)).
Proof.
  revert acc. induction feeds as [|feed feeds IH]; intros acc Hne Hnd; simpl; [auto|].
  apply IH; [now apply group_step_nonempty|].
  unfold group_step. destruct (get (Feed.category feed) acc); now apply NoDup_keys_set.
Qed.

(** X5: grouping puts under each category exactly the feeds of that
    category, in their order in the list; a category is a key exactly when
    it has a feed, and no key occurs twice.  (Stated for categories that
    are not names every object inherits, for which [acc[feed.category]]
    reads what the grouping stored.) *)
Theorem group_feeds_by_category feeds :
  Forall (fun feed => ~ In (Feed.category feed) Object_prototype) feeds ->
  NoDup (keys (group_feeds feeds)) /\
  forall category,
    get category (group_feeds feeds) =
    match filter (fun feed => String.eqb (Feed.category feed) category) feeds with
    | [] => None
    | grouped => Some grouped
    end.
Proof.
  intros _. change (group_feeds feeds) with (fold_left group_step feeds []).
  destruct (group_fold_facts feeds [] (Forall_nil _) (NoDup_nil _)) as [Hne Hnd].
  split; [exact Hnd|]. intros category.
  pose proof (group_fold_under feeds [] category) as Hunder.
  unfold grouped_under in Hunder. simpl in Hunder.
  destruct (get category (fold_left group_step feeds [])) as [fs|] eqn:E.
  - rewrite <- Hunder. apply get_Some_In in E. rewrite Forall_forall in Hne.
    specialize (Hne _ E). simpl in Hne. destruct fs; [contradiction | reflexivity].
  - rewrite <- Hunder. reflexivity.
Qed.

Lemma group_feeds_by_category_witness :
  NoDup (keys feedsByCategory) /\
  option_map (map Feed.url) (get "breaking" feedsByCategory)
    = Some ["https://timesofindia.indiatimes.com/rssfeedstopstories.cms";
            "https://www.hindustantimes.com/feeds/rss/india/rssfeed.xml"] /\
  get "sports" feedsByCategory = None.
Proof.
  destruct (group_feeds_by_category RSS_FEEDS) as [Hnd Hget].
  - repeat constructor; simpl; intuition discriminate.
  - split; [exact Hnd|]. unfold feedsByCategory. rewrite !Hget. split; reflexivity.
Defined.

(** ** The buckets, whatever the scores *)

Section BucketsDisjoint.
Context {B : Builtins}.

(** X6: whatever the scores, when [buckets] returns, every article of a
    bucket is one of the annotated articles and passes that bucket's test
    (score > 0.3, score < -0.3, score within [-0.3, 0.3]), and no article
    is in two buckets. *)
Theorem buckets_disjoint l r :
  buckets l = Ok r ->
  (forall a, In a (Analysis.positive r) -> In a l /\ above a = true) /\
  (forall a, In a (Analysis.negative r) -> In a l /\ below a = true) /\
  (forall a, In a (Analysis.neutral r) -> In a l /\ within a = true) /\
  (forall a,
      ~ (In a (Analysis.positive r) /\ In a (Analysis.negative r)) /\
      ~ (In a (Analysis.positive r) /\ In a (Analysis.neutral r)) /\
      ~ (In a (Analysis.negative r) /\ In a (Analysis.neutral r))).
Proof.
  intros H. rewrite (buckets_Ok_form l r H).
  cbn [Analysis.positive Analysis.negative Analysis.neutral]. unfold slice0.
  assert (Hpos : forall a, In a (firstn BUCKET_SIZE (Array_sort descending (filter above l))) ->
                           In a l /\ above a = true).
  { intros a Ha. apply In_firstn in Ha. apply (proj1 (Array_sort_In _ _ _)) in Ha.
    now apply filter_In in Ha. }
  assert (Hneg : forall a, In a (firstn BUCKET_SIZE (Array_sort ascending (filter below l))) ->
                           In a l /\ below a = true).
  { intros a Ha. apply In_firstn in Ha. apply (proj1 (Array_sort_In _ _ _)) in Ha.
    now apply filter_In in Ha. }
  assert (Hneu : forall a, In a (firstn BUCKET_SIZE (filter within l)) ->
                           In a l /\ within a = true).
  { intros a Ha. apply In_firstn in Ha. now apply filter_In in Ha. }
  split; [exact Hpos | split; [exact Hneg | split; [exact Hneu|]]].
  intros a. destruct (tests_exclusive a) as [Ha Hb]. repeat split.
  - intros [H1 H2]. destruct (Hpos a H1) as [_ E1]. destruct (Hneg a H2) as [_ E2].
    destruct (Ha E1). congruence.
  - intros [H1 H2]. destruct (Hpos a H1) as [_ E1]. destruct (Hneu a H2) as [_ E2].
    destruct (Ha E1). congruence.
  - intros [H1 H2]. destruct (Hneg a H1) as [_ E1]. destruct (Hneu a H2) as [_ E2].
    specialize (Hb E1). congruence.
Qed.

(** X7: [buckets], and with it the analysis of a category, throws
    exactly when the score of some annotated article cannot be coerced to
    a number; the exception is one that such a coercion throws. *)
Theorem buckets_throws_iff l :
  (forall e, buckets l = Err e ->
             Exists (fun a => ToNumber (Analyzed.sentiment_score a) = Err e) l) /\
  (Exists (fun a => exists e, ToNumber (Analyzed.sentiment_score a) = Err e) l ->
   exists e, buckets l = Err e).
Proof.
  split.
  - intros e. unfold buckets.
    destruct (Array_filter is_positive l) as [pos|e1] eqn:E1; cbn [bind].
    + destruct (Array_filter is_negative l) as [neg|e2] eqn:E2; cbn [bind].
      * destruct (Array_filter is_neutral l) as [neu|e3] eqn:E3; cbn [bind]; [discriminate|].
        intros [= <-]. apply Array_filter_Err in E3.
        eapply Exists_impl; [|exact E3]. intros a. apply filter_Err_uncoercible. auto.
      * intros [= <-]. apply Array_filter_Err in E2.
        eapply Exists_impl; [|exact E2]. intros a. apply filter_Err_uncoercible. auto.
    + intros [= <-]. apply Array_filter_Err in E1.
      eapply Exists_impl; [|exact E1]. intros a. apply filter_Err_uncoercible. auto.
  - intros H. unfold buckets.
    destruct (Array_filter_throws is_positive l) as [e He].
    + eapply Exists_impl; [|exact H]. intros a [e He].
      exists e. apply (filters_of_uncoercible a e He).
    + rewrite He. cbn [bind]. eauto.
Qed.
End BucketsDisjoint.

Lemma buckets_disjoint_witness :
  exists r,
    buckets (B := scenario_builtins) nine_scores = Ok r /\
    forall a, In a (Analysis.positive r) ->
              In a nine_scores /\ above (B := scenario_builtins) a = true.
Proof.
  destruct (buckets (B := scenario_builtins) nine_scores) as [r|e] eqn:E.
  - exists r. split; [reflexivity|].
    exact (proj1 (buckets_disjoint (B := scenario_builtins) nine_scores r E)).
  - vm_compute in E. discriminate.
Defined.

Lemma buckets_throws_iff_witness :
  exists e,
    buckets (B := scenario_builtins) [analyzeSentiment story_v1 unreadable_score] = Err e.
Proof.
  apply (proj2 (buckets_throws_iff (B := scenario_builtins)
                  [analyzeSentiment story_v1 unreadable_score])).
  apply Exists_cons_hd. eexists. vm_compute. reflexivity.
Defined.

(** ** More on the handler of [GET /api/articles/:category] *)

Lemma analyzeSentiment_call_fails article reply :
  call_fails reply -> analyzeSentiment article reply = fallback article.
Proof. destruct reply; simpl; intros H; try contradiction; reflexivity. Qed.

Ltac early_answer :=
  left; eexists; split; [reflexivity|]; split; [exact I|];
  let Heq := fresh "Heq" in intros ? ? ? Heq; discriminate Heq.

Section HandlerInGeneral.
Context {B : Builtins}.

(** The [try] block either answers early, leaving the state as it is, or
    passes every guard and runs the analysis. *)
Lemma try_block_cases w category st :
  (exists r,
      try_block w category st = (Ok r, st) /\ early r /\
      forall d age left,
        r = FromCache d age left ->
        fresh_data (entry_of category (analysisCache st))
          (now w - CacheEntry.timestamp (entry_of category (analysisCache st))) = Some d /\
        age = (now w - CacheEntry.timestamp (entry_of category (analysisCache st))) / 1000 /\
        left = (CACHE_DURATION
                - (now w - CacheEntry.timestamp (entry_of category (analysisCache st)))) / 1000) \/
  (exists cs,
      get category (rawArticles st) = Some cs /\
      CategoryState.isLoading cs = false /\
      stored_error cs = None /\
      CategoryState.articles cs <> [] /\
      fresh_data (entry_of category (analysisCache st))
        (now w - CacheEntry.timestamp (entry_of category (analysisCache st))) = None /\
      CacheEntry.isAnalyzing (entry_of category (analysisCache st)) = false /\
      try_block w category st = fresh_analysis w category cs st).
Proof.
  unfold try_block.
  destruct (js_in category (rawArticles st)); cbn [negb]; [|early_answer].
  destruct (get category (rawArticles st)) as [cs|] eqn:Hget; [|early_answer].
  destruct (CategoryState.isLoading cs) eqn:Hload; [early_answer|].
  destruct (stored_error cs) eqn:Herr; [early_answer|].
  destruct (CategoryState.articles cs) as [|a arts] eqn:Harts; [early_answer|].
  unfold serve.
  destruct (fresh_data _ _) as [d|] eqn:Hfresh.
  { left. eexists. split; [reflexivity|]. split; [exact I|].
    intros d' age left Heq.
    apply (f_equal (fun r => match r with
                             | FromCache x y z => Some (x, y, z)
                             | _ => None
                             end)) in Heq.
    cbv beta iota in Heq. injection Heq as <- <- <-. auto. }
  destruct (CacheEntry.isAnalyzing _) eqn:Hflag; [early_answer|].
  right. exists cs. rewrite Harts.
  repeat (split; [first [reflexivity | assumption | discriminate]|]). reflexivity.
Qed.

Lemma fresh_analysis_cases w category cs st :
  (exists analysis,
      analyzeArticles (llm w) (rawArticles st) category = Ok analysis /\
      fresh_analysis w category cs st =
      (Ok (JustAnalyzed
             (make_data category (List.length (CategoryState.articles cs)) analysis (updated w))),
       State (rawArticles st)
         (set category
            (CacheEntry.Build (stored w)
               (Some (make_data category (List.length (CategoryState.articles cs)) analysis
                        (updated w)))
               false StartNull)
            (analysisCache (marked w category st))))) \/
  (exists e,
      analyzeArticles (llm w) (rawArticles st) category = Err e /\
      fresh_analysis w category cs st = (Err e, marked w category st)).
Proof.
  unfold fresh_analysis, marked. cbn [rawArticles analysisCache].
  destruct (analyzeArticles (llm w) (rawArticles st) category) as [analysis|e].
  - left. exists analysis. split; reflexivity.
  - right. exists e. split; reflexivity.
Qed.

(** During an outage of the LLM every annotation is the placeholder. *)
Lemma analyzeArticles_outage reply raw category cs :
  get category raw = Some cs ->
  CategoryState.articles cs <> [] ->
  (forall a, In a (CategoryState.articles cs) -> call_fails (reply a)) ->
  analyzeArticles reply raw category =
  Ok (Analysis.Build [] [] (firstn BUCKET_SIZE (map fallback (CategoryState.articles cs))) []).
Proof.
  intros Hget Harts Hfail. rewrite (analyzeArticles_buckets reply raw category cs Hget Harts).
  rewrite (map_ext_in _ fallback)
    by (intros a Ha; apply analyzeSentiment_call_fails; auto).
  rewrite buckets_coercible.
  - rewrite (filter_none above), (filter_none below), (filter_all within);
      try reflexivity; intros a Ha; apply in_map_iff in Ha; destruct Ha as (x & <- & _);
      reflexivity.
  - apply Forall_forall. intros a Ha. apply in_map_iff in Ha. destruct Ha as (x & <- & _).
    exists (Fin 0). reflexivity.
Qed.

(** X8: while every call of the LLM fails, no request ends with the 500
    "internal server error" answer, and a request that runs an analysis
    answers 200 with empty positive and negative lists and, as neutral
    list, the placeholder annotations of the first five retained
    articles. *)
Theorem llm_outage_all_neutral w param st :
  (forall a, call_fails (llm w a)) ->
  (forall msg c, fst (handler w param st) <> InternalError msg c) /\
  (forall data,
      fst (handler w param st) = JustAnalyzed data ->
      Buckets.positive (Data.articles data) = [] /\
      Buckets.negative (Data.articles data) = [] /\
      exists cs,
        get (toLowerCase param) (rawArticles st) = Some cs /\
        Buckets.neutral (Data.articles data)
          = firstn BUCKET_SIZE (map fallback (CategoryState.articles cs))).
Proof.
  intros Hfail. unfold handler.
  destruct (try_block_cases w (toLowerCase param) st)
    as [(r & -> & Hearly & _)|(cs & Hget & _ & _ & Harts & _ & _ & ->)].
  - cbn [fst]. split.
    + intros msg c ->. exact Hearly.
    + intros data ->. contradiction.
  - unfold fresh_analysis. cbn [rawArticles].
    rewrite (analyzeArticles_outage (llm w) (rawArticles st) (toLowerCase param) cs Hget Harts)
      by (intros a _; apply Hfail).
    cbn [fst]. split; [discriminate|].
    intros data [= <-]. repeat split. exists cs. split; [exact Hget | reflexivity].
Qed.

Lemma analyzeArticles_lengths reply raw category cs analysis :
  get category raw = Some cs ->
  analyzeArticles reply raw category = Ok analysis ->
  (List.length (Analysis.positive analysis) + List.length (Analysis.negative analysis)
   + List.length (Analysis.neutral analysis) <= List.length (CategoryState.articles cs))%nat.
Proof.
  intros Hget. unfold analyzeArticles. rewrite Hget.
  destruct (CategoryState.articles cs) as [|a arts] eqn:E.
  - intros [= <-]. simpl. lia.
  - intros H. apply buckets_lengths in H. rewrite length_map in H. exact H.
Qed.

(** What a request does to the cached data: an entry's data after the
    request is the data it had before, or the data just made. *)
Lemma handler_data w param st (P : Data.t -> Prop) :
  (forall c e d, get c (analysisCache st) = Some e -> CacheEntry.data e = Some d -> P d) ->
  (forall cs analysis,
      get (toLowerCase param) (rawArticles st) = Some cs ->
      analyzeArticles (llm w) (rawArticles st) (toLowerCase param) = Ok analysis ->
      P (make_data (toLowerCase param) (List.length (CategoryState.articles cs)) analysis
           (updated w))) ->
  (forall c e d,
      get c (analysisCache (snd (handler w param st))) = Some e ->
      CacheEntry.data e = Some d -> P d) /\
  (forall d from_cache, body (fst (handler w param st)) = Some (d, from_cache) -> P d).
Proof.
  intros Hold Hnew.
  assert (Hentry : forall d, CacheEntry.data (entry_of (toLowerCase param) (analysisCache st))
                             = Some d -> P d).
  { intros d. unfold entry_of.
    destruct (get (toLowerCase param) (analysisCache st)) as [e|] eqn:E;
      [apply (Hold _ e d E) | discriminate]. }
  unfold handler.
  destruct (try_block_cases w (toLowerCase param) st)
    as [(r & -> & Hearly & Hcached)|(cs & Hget & _ & _ & _ & _ & _ & ->)].
  - cbn [fst snd]. split; [exact Hold|].
    intros d from_cache Hbody. destruct r; try discriminate; [|contradiction].
    injection Hbody as -> _.
    destruct (Hcached _ _ _ eq_refl) as (Hfresh & _). apply fresh_data_Some in Hfresh.
    apply Hentry, Hfresh.
  - destruct (fresh_analysis_cases w (toLowerCase param) cs st)
      as [(analysis & Han & ->)|(e & Han & ->)]; cbn [fst snd].
    + split.
      * intros c e d. cbn [analysisCache marked]. rewrite !get_set.
        destruct (String.eqb c (toLowerCase param)); [|apply Hold].
        intros [= <-]. cbn [CacheEntry.data]. intros [= <-]. now apply Hnew.
      * intros d from_cache [= <- _]. now apply Hnew.
    + rewrite clear_flags_marked. split; [|discriminate].
      intros c e' d. cbn [analysisCache marked]. rewrite !get_set.
      destruct (String.eqb c (toLowerCase param)); [|apply Hold].
      intros [= <-]. cbn [CacheEntry.data]. apply Hentry.
Qed.

Lemma reachable_cache_bounded st :
  reachable st ->
  forall c e d, get c (analysisCache st) = Some e -> CacheEntry.data e = Some d -> bounded d.
Proof.
  induction 1 as [|w st _ IH|w param st Hreach IH].
  - intros c e d H. apply get_Some_In in H. simpl in H.
    repeat (destruct H as [[= <- <-]|H]; [discriminate|]). contradiction.
  - exact IH.
  - apply (handler_data w param st bounded IH).
    intros cs analysis Hget Han. unfold bounded, make_data.
    cbn [Data.summary Summary.analyzed_articles Summary.total_articles]. split.
    + exact (analyzeArticles_lengths _ _ _ cs analysis Hget Han).
    + exact (proj1 (reachable_all_retained_ok st Hreach _ cs Hget)).
Qed.

(** X9: in every 200 answer of a run of the server, from the cache or
    fresh, [analyzed_articles] is at most [total_articles], which is at
    most ten. *)
Theorem summary_bounded st w param data from_cache :
  reachable st ->
  body (fst (handler w param st)) = Some (data, from_cache) ->
  (Summary.analyzed_articles (Data.summary data)
   <= Summary.total_articles (Data.summary data))%nat /\
  (Summary.total_articles (Data.summary data) <= 10)%nat.
Proof.
  intros Hreach Hbody.
  apply (proj2 (handler_data w param st bounded (reachable_cache_bounded st Hreach)
                  (fun cs analysis Hget Han =>
                     conj (analyzeArticles_lengths _ _ _ cs analysis Hget Han)
                          (proj1 (reachable_all_retained_ok st Hreach _ cs Hget))))
           data from_cache Hbody).
Qed.
End HandlerInGeneral.

Lemma llm_outage_all_neutral_witness :
  exists data,
    fst (handler (B := scenario_builtins) (request_at 1000000 NoChoices) "technology" with_story)
      = JustAnalyzed data /\
    Buckets.positive (Data.articles data) = [] /\
    Buckets.negative (Data.articles data) = [] /\
    Buckets.neutral (Data.articles data) = [fallback story_v1].
Proof.
  eexists. split; [vm_compute; reflexivity|].
  destruct (proj2 (llm_outage_all_neutral (B := scenario_builtins)
                     (request_at 1000000 NoChoices) "technology" with_story (fun _ => I))
              _ ltac:(vm_compute; reflexivity)) as (Hpos & Hneg & _).
  split; [exact Hpos|]. split; [exact Hneg|]. vm_compute. reflexivity.
Defined.

Lemma summary_bounded_witness :
  exists data,
    body (fst (handler (B := scenario_builtins) (request_at 1000000 good_reply) "technology"
                 with_six_stories))
      = Some (data, false) /\
    (Summary.analyzed_articles (Data.summary data)
     <= Summary.total_articles (Data.summary data))%nat /\
    (Summary.total_articles (Data.summary data) <= 10)%nat.
Proof.
  eexists. split; [vm_compute; reflexivity|].
  apply (summary_bounded (B := scenario_builtins) with_six_stories
           (request_at 1000000 good_reply) "technology" _ false).
  - exact (@reach_fetch scenario_builtins six_stories initial_state
             (@reach_initial scenario_builtins)).
  - vm_compute. reflexivity.
Defined.

Section HandlerComposition.
Context {B : Builtins}.

(** The [try] block on a category that passes the guards. *)
Lemma try_block_serve_loaded w category raw cache cs :
  get category raw = Some cs ->
  CategoryState.isLoading cs = false ->
  stored_error cs = None ->
  CategoryState.articles cs <> [] ->
  try_block w category (State raw cache) = serve w category cs (State raw cache).
Proof.
  intros Hget Hload Herr Harts. unfold try_block. cbn [rawArticles].
  rewrite (js_in_own _ _ _ Hget). cbn [negb]. rewrite Hget, Hload, Herr.
  destruct (CategoryState.articles cs); [contradiction | reflexivity].
Qed.


(** X11: whenever the handler answers from the cache, the age it reports
    is at most 299 seconds and the time left is not negative; if the entry
    was not stored after the request's reading of the clock, the age is
    not negative either, the time left is at most 300 seconds, and the two
    add up to 299 or 300 seconds. *)
Theorem cache_age_bounds w param st data age left :
  fst (handler w param st) = FromCache data age left ->
  age <= 299 /\ 0 <= left /\
  (CacheEntry.timestamp (entry_of (toLowerCase param) (analysisCache st)) <= now w ->
   0 <= age /\ left <= 300 /\ 299 <= age + left <= 300).
Proof.
  unfold handler. cbv zeta.
  destruct (try_block_cases w (toLowerCase param) st)
    as [(r & -> & _ & Hcached)|(cs & _ & _ & _ & _ & _ & _ & ->)]; cbn [fst].
  - intros Heq. destruct (Hcached _ _ _ Heq) as (Hfresh & -> & ->).
    apply fresh_data_Some in Hfresh. destruct Hfresh as (_ & Hage).
    unfold CACHE_DURATION in *.
    set (t := CacheEntry.timestamp (entry_of (toLowerCase param) (analysisCache st))) in *.
    clearbody t. repeat split; intros; Z.div_mod_to_equations; lia.
  - destruct (fresh_analysis_cases w (toLowerCase param) cs st)
      as [(an & _ & ->)|(e & _ & ->)]; cbn [fst]; discriminate.
Qed.

(** X12: a fetch cycle does not touch the cache.  While a category's
    cached analysis is fresh, a request after a cycle in which one of the
    category's sources succeeded is still answered with the cached data,
    whatever the cycle retained; after a cycle in which every source
    failed it is answered with the 500 fetch error, although the retained
    articles and the cached analysis are as before. *)
Theorem cache_across_fetch_cycle fw w param st feeds cs e data :
  has_categories (rawArticles st) ->
  get (toLowerCase param) feedsByCategory = Some feeds ->
  get (toLowerCase param) (rawArticles st) = Some cs ->
  CategoryState.articles cs <> [] ->
  get (toLowerCase param) (analysisCache st) = Some e ->
  CacheEntry.data e = Some data ->
  now w - CacheEntry.timestamp e < CACHE_DURATION ->
  let st' := State (fetchAllFeeds fw (rawArticles st)) (analysisCache st) in
  (Exists (succeeds fw) feeds ->
   handler w param st' =
   (FromCache data ((now w - CacheEntry.timestamp e) / 1000)
      ((CACHE_DURATION - (now w - CacheEntry.timestamp e)) / 1000), st')) /\
  (Forall (fails fw) feeds ->
   handler w param st' = (FetchError ALL_FAILED (toLowerCase param), st')).
Proof.
  intros Hcats Hfeeds Hget Harts Hentry Hdata Hage st'.
  pose proof (fetchAllFeeds_get fw (rawArticles st) _ feeds cs Hcats Hfeeds Hget) as Hget'.
  unfold handler. cbv zeta. subst st'. split.
  - intros Hsome.
    pose proof (tryFeeds_success fw feeds [] false Hsome) as Hflag.
    destruct (tryFeeds fw feeds [] false) as [allArticles flag] eqn:Htry.
    cbn [snd] in Hflag. subst flag.
    rewrite (fetchCategory_success fw feeds cs allArticles Htry) in Hget'.
    rewrite (try_block_serve_loaded w _ _ _ _ Hget' eq_refl eq_refl
               (retain_nonempty _ allArticles Harts)).
    unfold serve, entry_of. cbn [analysisCache]. rewrite Hentry.
    rewrite (proj2 (fresh_data_Some e _ data) (conj Hdata Hage)). reflexivity.
  - intros Hall.
    rewrite (fetchCategory_failure fw feeds cs []
               (tryFeeds_all_fail fw feeds [] false Hall)) in Hget'.
    unfold try_block. cbn [rawArticles].
    rewrite (js_in_own _ _ _ Hget'). cbn [negb]. rewrite Hget'. reflexivity.
Qed.

(** X13: a request leaves the retained articles and the cache entries of
    all other categories as they were. *)
Theorem handler_frame w param st c :
  c <> toLowerCase param ->
  rawArticles (snd (handler w param st)) = rawArticles st /\
  get c (analysisCache (snd (handler w param st))) = get c (analysisCache st).
Proof.
  intros Hne. split; [apply handler_rawArticles|].
  unfold handler. cbv zeta.
  destruct (try_block_cases w (toLowerCase param) st)
    as [(r & -> & _)|(cs & _ & _ & _ & _ & _ & _ & ->)]; [reflexivity|].
  destruct (fresh_analysis_cases w (toLowerCase param) cs st)
    as [(an & _ & ->)|(e & _ & ->)]; cbn [fst snd].
  - cbn [analysisCache marked]. now rewrite !get_set_ne.
  - rewrite clear_flags_marked. cbn [analysisCache marked]. now rewrite !get_set_ne.
Qed.

(** X14: an answer other than a fresh analysis or the 500 "internal
    server error" is given without the LLM and without a change of state:
    any request that reads the same time from the clock gets the same
    answer, whatever the LLM would reply. *)
Theorem early_answer_ignores_llm w1 w2 param st :
  now w1 = now w2 ->
  early (fst (handler w1 param st)) ->
  handler w2 param st = handler w1 param st /\ snd (handler w1 param st) = st.
Proof.
  intros Hnow. unfold handler. cbv zeta. unfold try_block, serve. rewrite <- Hnow.
  destruct (js_in _ _); cbn [negb]; [|split; reflexivity].
  destruct (get _ (rawArticles st)) as [cs|]; [|split; reflexivity].
  destruct (CategoryState.isLoading cs); [split; reflexivity|].
  destruct (stored_error cs); [split; reflexivity|].
  destruct (CategoryState.articles cs) eqn:Harts; [split; reflexivity|].
  destruct (fresh_data _ _); [split; reflexivity|].
  destruct (CacheEntry.isAnalyzing _); [split; reflexivity|].
  destruct (fresh_analysis_cases w1 (toLowerCase param) cs st)
    as [(an & _ & ->)|(e & _ & ->)]; cbn [fst]; intros [].
Qed.
End HandlerComposition.


Lemma cache_age_bounds_witness :
  let first := request_at 1000000 good_reply in
  let again := request_at 1100000 good_reply in
  let st1 := snd (handler (B := scenario_builtins) first "technology" with_story) in
  exists data,
    fst (handler (B := scenario_builtins) again "technology" st1) = FromCache data 98 201 /\
    98 <= 299 /\ 0 <= 201 /\ 0 <= 98 /\ 201 <= 300 /\ 299 <= 98 + 201 <= 300.
Proof.
  intros first again st1. eexists. split; [vm_compute; reflexivity|].
  edestruct (cache_age_bounds (B := scenario_builtins) again "technology" st1)
    as (Hage & Hleft & Hclock); [vm_compute; reflexivity|].
  premise Hclock; [vm_compute; discriminate|].
  exact (conj Hage (conj Hleft Hclock)).
Defined.

Lemma cache_across_fetch_cycle_witness :
  let first := request_at 1000000 good_reply in
  let again := request_at 1100000 good_reply in
  let st1 := snd (handler (B := scenario_builtins) first "technology" with_story) in
  exists data,
    fst (handler (B := scenario_builtins) first "technology" with_story) = JustAnalyzed data /\
    fst (handler (B := scenario_builtins) again "technology"
           (State (fetchAllFeeds second_cycle (rawArticles st1)) (analysisCache st1)))
      = FromCache data 98 201 /\
    fst (handler (B := scenario_builtins) again "technology"
           (State (fetchAllFeeds all_down (rawArticles st1)) (analysisCache st1)))
      = FetchError ALL_FAILED "technology".
Proof.
  intros first again st1. eexists. split; [vm_compute; reflexivity|].
  split.
  - edestruct (cache_across_fetch_cycle (B := scenario_builtins) second_cycle again
                 "technology" st1) as [Hsome _];
      [vm_compute; reflexivity | vm_compute; reflexivity | vm_compute; reflexivity
      | vm_compute; discriminate | vm_compute; reflexivity | vm_compute; reflexivity
      | vm_compute; reflexivity |].
    premise Hsome; [constructor; eexists; vm_compute; reflexivity|].
    rewrite Hsome. vm_compute. reflexivity.
  - edestruct (cache_across_fetch_cycle (B := scenario_builtins) all_down again
                 "technology" st1) as [_ Hall];
      [vm_compute; reflexivity | vm_compute; reflexivity | vm_compute; reflexivity
      | vm_compute; discriminate | vm_compute; reflexivity | vm_compute; reflexivity
      | vm_compute; reflexivity |].
    premise Hall; [repeat constructor; exists (Error "ETIMEDOUT"); vm_compute; reflexivity|].
    rewrite Hall. reflexivity.
Defined.

Lemma handler_frame_witness :
  let answered := handler (B := scenario_builtins) (request_at 1000000 good_reply)
                    "technology" with_story in
  rawArticles (snd answered) = rawArticles with_story /\
  get "business" (analysisCache (snd answered)) = get "business" (analysisCache with_story).
Proof.
  intros answered.
  apply (handler_frame (B := scenario_builtins) (request_at 1000000 good_reply)
           "technology" with_story "business").
  vm_compute. discriminate.
Defined.

Lemma early_answer_ignores_llm_witness :
  handler (B := scenario_builtins) (request_at 1000000 NoChoices) "technology" story_and_error
    = handler (B := scenario_builtins) (request_at 1000000 good_reply) "technology"
        story_and_error /\
  snd (handler (B := scenario_builtins) (request_at 1000000 good_reply) "technology"
         story_and_error) = story_and_error.
Proof.
  apply (early_answer_ignores_llm (B := scenario_builtins) (request_at 1000000 good_reply)
           (request_at 1000000 NoChoices) "technology" story_and_error).
  - reflexivity.
  - vm_compute. exact I.
Defined.

(** ** The listing of [GET /api/articles] *)

Lemma set_fresh {V} k (v : V) (m : list (string * V)) :
  ~ In k (keys m) -> set k v m = m ++ [(k, v)].
Proof.
  unfold keys. induction m as [|[k0 v0] m IH]; simpl; intros Hfresh; [reflexivity|].
  destruct (String.eqb_spec k k0) as [->|_]; [exfalso; apply Hfresh; now left|].
  rewrite IH; [reflexivity|]. intros HIn. apply Hfresh. now right.
Qed.

(** Setting one entry per pair of an object with distinct names lists the
    entries in the order of the object. *)
Lemma fold_set_fresh {V W} (f : string -> V -> W) (l : list (string * V)) acc :
  NoDup (keys acc ++ keys l) ->
  fold_left (fun acc entry => set (fst entry) (f (fst entry) (snd entry)) acc) l acc
  = acc ++ map (fun entry => (fst entry, f (fst entry) (snd entry))) l.
Proof.
  revert acc. induction l as [|[k v] l IH]; intros acc Hnd; cbn [fold_left map fst snd].
  - now rewrite app_nil_r.
  - rewrite set_fresh.
    + rewrite IH; [now rewrite <- app_assoc|].
      unfold keys in *. rewrite map_app, <- app_assoc. exact Hnd.
    + apply NoDup_remove_2 in Hnd. intros HIn. apply Hnd, in_or_app. now left.
Qed.

Lemma get_map_entries {V W} (f : string -> V -> W) c (l : list (string * V)) :
  get c (map (fun entry => (fst entry, f (fst entry) (snd entry))) l)
  = option_map (f c) (get c l).
Proof.
  induction l as [|[k v] l IH]; cbn [map get fst snd]; [reflexivity|].
  destruct (String.eqb_spec c k) as [->|_]; [reflexivity | exact IH].
Qed.

Lemma list_articles_entries clock flag st :
  NoDup (keys (rawArticles st)) ->
  Listing.articles_per_category (list_articles clock flag st)
  = map (fun entry =>
           (fst entry, category_info clock (analysisCache st) (fst entry) (snd entry)))
        (rawArticles st).
Proof.
  intros Hnd. unfold list_articles. cbn [Listing.articles_per_category].
  exact (fold_set_fresh (category_info clock (analysisCache st)) (rawArticles st) [] Hnd).
Qed.

Lemma has_categories_NoDup {V} (obj : list (string * V)) :
  has_categories obj -> NoDup (keys obj).
Proof.
  unfold has_categories. intros ->.
  repeat (constructor; [simpl; intuition discriminate|]). constructor.
Qed.

Lemma category_lowercase c :
  In c ["breaking"; "technology"; "business"; "science"; "health"] -> toLowerCase c = c.
Proof.
  intros H. simpl in H.
  repeat (destruct H as [<-|H]; [reflexivity|]). contradiction.
Qed.

Lemma has_categories_In {V} (obj : list (string * V)) c v :
  has_categories obj -> get c obj = Some v ->
  In c ["breaking"; "technology"; "business"; "science"; "health"].
Proof.
  unfold has_categories. intros <- Hget.
  destruct (in_dec string_dec c (keys obj)) as [HIn|Hout]; [exact HIn|].
  apply get_None_keys in Hout. congruence.
Qed.

Section ListingInGeneral.
Context {B : Builtins}.

(** A request keeps the five entries of the cache. *)
Lemma handler_cache_categories w param st :
  has_categories (rawArticles st) ->
  has_categories (analysisCache st) ->
  has_categories (analysisCache (snd (handler w param st))).
Proof.
  intros Hraw Hcache. unfold handler. cbv zeta.
  destruct (try_block_cases w (toLowerCase param) st)
    as [(r & -> & _)|(cs & Hget & _ & _ & _ & _ & _ & ->)]; [exact Hcache|].
  pose proof (has_categories_In _ _ _ Hraw Hget) as HIn.
  unfold has_categories in Hcache |- *. rewrite <- Hcache in HIn.
  apply In_keys_get in HIn. destruct HIn as (e0 & He0).
  assert (Hmarked : forall v, keys (set (toLowerCase param) v (analysisCache st))
                              = keys (analysisCache st))
    by (intros v; exact (keys_set_present _ v e0 _ He0)).
  destruct (fresh_analysis_cases w (toLowerCase param) cs st)
    as [(an & _ & ->)|(e & _ & ->)]; cbn [fst snd].
  - cbn [analysisCache marked].
    rewrite (keys_set_present _ _ _ _ (get_set_eq _ _ _)), Hmarked. exact Hcache.
  - rewrite clear_flags_marked. cbn [analysisCache marked].
    rewrite (keys_set_present _ _ _ _ (get_set_eq _ _ _)), Hmarked. exact Hcache.
Qed.

Lemma reachable_cache_categories st : reachable st -> has_categories (analysisCache st).
Proof.
  induction 1 as [|w st _ IH|w param st Hreach IH].
  - reflexivity.
  - exact IH.
  - apply handler_cache_categories; [apply reachable_has_categories, Hreach | exact IH].
Qed.

(** X15: in every state of a run of the server the listing names the
    five categories, in the same order in both of its members; the count
    of a category is the number of its retained articles, at most ten;
    [last_updated] is null exactly for a category without articles and
    otherwise the newest timestamp among the retained articles. *)
Theorem listing_of_run clock flag st :
  reachable st ->
  Listing.available_categories (list_articles clock flag st)
    = ["breaking"; "technology"; "business"; "science"; "health"] /\
  keys (Listing.articles_per_category (list_articles clock flag st))
    = ["breaking"; "technology"; "business"; "science"; "health"] /\
  forall c info,
    get c (Listing.articles_per_category (list_articles clock flag st)) = Some info ->
    exists cs,
      get c (rawArticles st) = Some cs /\
      CategoryInfo.article_count info = List.length (CategoryState.articles cs) /\
      (CategoryInfo.article_count info <= 10)%nat /\
      match CategoryInfo.last_updated info with
      | None => CategoryState.articles cs = []
      | Some t =>
          (exists a, In a (CategoryState.articles cs) /\ Article.timestamp a = t) /\
          Forall (fun a => Article.timestamp a <= t) (CategoryState.articles cs)
      end.
Proof.
  intros Hreach.
  pose proof (reachable_has_categories st Hreach) as Hcats.
  rewrite (list_articles_entries clock flag st (has_categories_NoDup _ Hcats)).
  split; [exact Hcats|]. split.
  - unfold keys. rewrite map_map. exact Hcats.
  - intros c info. rewrite get_map_entries.
    destruct (get c (rawArticles st)) as [cs|] eqn:Hget; [|discriminate].
    intros [= <-]. exists cs. split; [reflexivity|]. split; [reflexivity|].
    destruct (reachable_all_retained_ok st Hreach c cs Hget) as (Hlen & Hsorted).
    split; [exact Hlen|].
    unfold category_info. cbn [CategoryInfo.last_updated].
    destruct (CategoryState.articles cs) as [|a rest]; cbn [first_timestamp]; [reflexivity|].
    split; [exists a; split; [now left | reflexivity]|].
    apply StronglySorted_inv in Hsorted. destruct Hsorted as (_ & Hrest).
    constructor; [apply Z.le_refl | exact Hrest].
Qed.

(** X16: throughout a run [rawArticles] and [analysisCache] hold the
    five categories, and in every state in which they do, whether or not
    a category is loading or being analyzed, [has_analysis] of a listed
    category is never undefined; it is null exactly while the category's
    cache entry holds no data; and, for a category that is not loading,
    has articles and has no stored error, it is [true] exactly when a
    request for the category that reads the same time from the clock is
    answered from the cache. *)
Theorem listing_has_analysis clock flag :
  (forall st,
      reachable st ->
      has_categories (rawArticles st) /\ has_categories (analysisCache st)) /\
  (forall st c info,
      has_categories (rawArticles st) ->
      has_categories (analysisCache st) ->
      get c (Listing.articles_per_category (list_articles clock flag st)) = Some info ->
      CategoryInfo.has_analysis info <> JUndefined /\
      (CategoryInfo.has_analysis info = JNull
       <-> CacheEntry.data (entry_of c (analysisCache st)) = None) /\
      (forall w cs,
          now w = clock c ->
          get c (rawArticles st) = Some cs ->
          CategoryState.isLoading cs = false ->
          stored_error cs = None ->
          CategoryState.articles cs <> [] ->
          (CategoryInfo.has_analysis info = JBool true
           <-> exists d age left, fst (handler w c st) = FromCache d age left))).
Proof.
  split.
  { intros st Hreach.
    exact (conj (reachable_has_categories st Hreach) (reachable_cache_categories st Hreach)). }
  intros st c info Hcats Hcache.
  rewrite (list_articles_entries clock flag st (has_categories_NoDup _ Hcats)).
  rewrite get_map_entries.
  destruct (get c (rawArticles st)) as [cs0|] eqn:Hget0; [|discriminate].
  intros [= <-]. unfold category_info. cbn [CategoryInfo.has_analysis].
  pose proof (has_categories_In _ _ _ Hcats Hget0) as HIn.
  pose proof (category_lowercase c HIn) as Hlower.
  unfold has_categories in Hcache. rewrite <- Hcache in HIn.
  apply In_keys_get in HIn. destruct HIn as (e & He).
  unfold entry_of. rewrite He. cbn [has_analysis_at].
  split; [destruct (CacheEntry.data e); discriminate|].
  split; [destruct (CacheEntry.data e); split; intros; congruence|].
  intros w cs Hnow [= <-] Hload Herr Harts.
  unfold handler. cbv zeta. rewrite Hlower. destruct st as [raw cache].
  cbn [rawArticles analysisCache] in *.
  rewrite (try_block_serve_loaded w c raw cache cs0 Hget0 Hload Herr Harts).
  unfold serve, entry_of, fresh_data. cbn [analysisCache]. rewrite He, Hnow.
  destruct (CacheEntry.data e) as [d|].
  - destruct (clock c - CacheEntry.timestamp e <? CACHE_DURATION).
    + split; [intros _; do 3 eexists; reflexivity | reflexivity].
    + split; [discriminate|]. intros (d' & age & left & Heq). exfalso. revert Heq.
      destruct (CacheEntry.isAnalyzing e); [discriminate|].
      destruct (fresh_analysis_cases w c cs0 (State raw cache))
        as [(an & _ & ->)|(err & _ & ->)]; discriminate.
  - split; [discriminate|]. intros (d' & age & left & Heq). exfalso. revert Heq.
    destruct (CacheEntry.isAnalyzing e); [discriminate|].
    destruct (fresh_analysis_cases w c cs0 (State raw cache))
      as [(an & _ & ->)|(err & _ & ->)]; discriminate.
Qed.
End ListingInGeneral.

Lemma listing_of_run_witness :
  exists info,
    get "technology"
      (Listing.articles_per_category (list_articles (fun _ => 7000) true with_six_stories))
      = Some info /\
    CategoryInfo.article_count info = 6%nat /\
    CategoryInfo.last_updated info = Some 6000.
Proof.
  destruct (listing_of_run (B := scenario_builtins) (fun _ => 7000) true with_six_stories
              (@reach_fetch scenario_builtins six_stories initial_state
                 (@reach_initial scenario_builtins)))
    as (_ & _ & Hentries).
  eexists. split; [vm_compute; reflexivity|].
  match goal with
  | |- CategoryInfo.article_count ?i = _ /\ _ =>
      destruct (Hentries "technology" i ltac:(vm_compute; reflexivity))
        as (cs & Hget & Hcount & _)
  end.
  split; [|reflexivity].
  rewrite Hcount. vm_compute in Hget. injection Hget as <-. reflexivity.
Defined.

Lemma listing_has_analysis_witness :
  let first := request_at 1000000 good_reply in
  let st1 := snd (handler (B := scenario_builtins) first "technology" with_story) in
  exists info,
    get "technology"
      (Listing.articles_per_category (list_articles (fun _ => 1100000) true st1)) = Some info /\
    CategoryInfo.has_analysis info = JBool true /\
    exists d age left,
      fst (handler (B := scenario_builtins) (request_at 1100000 NoChoices) "technology" st1)
        = FromCache d age left.
Proof.
  intros first st1. eexists. split; [vm_compute; reflexivity|].
  split; [reflexivity|].
  destruct (listing_has_analysis (B := scenario_builtins) (fun _ => 1100000) true)
    as [Hshape Hlisting].
  destruct (Hshape st1 (@reach_request scenario_builtins first "technology" with_story
                          (@reach_fetch scenario_builtins first_cycle initial_state
                             (@reach_initial scenario_builtins))))
    as [Hraw Hcache].
  edestruct (Hlisting st1 "technology") as (_ & _ & Hserved);
    [exact Hraw | exact Hcache | vm_compute; reflexivity |].
  apply (Hserved (request_at 1100000 NoChoices) (CategoryState.Build [story_v1] false None));
    [reflexivity | vm_compute; reflexivity | reflexivity | reflexivity | discriminate
    | reflexivity].
Defined.

(** ** The endpoint [GET /api/llm-news-summary/:category] *)

Lemma map_indexed_headlines i l1 l2 :
  Forall2 same_headline l1 l2 ->
  map_indexed context_line i l1 = map_indexed context_line i l2.
Proof.
  intros H. revert i. induction H as [|a b l1 l2 [Htitle Hcontent] _ IH]; intros i;
    cbn [map_indexed]; [reflexivity|].
  rewrite IH. unfold context_line. rewrite Htitle, Hcontent. reflexivity.
Qed.

Section SummaryEndpoint.
Context {B : Builtins}.

(** What an answer of the [try] block says about the retained
    articles. *)
Lemma try_block_answers w category st r st' :
  try_block w category st = (Ok r, st') ->
  match r with
  | CategoryNotFound _ => get category (rawArticles st) = None
  | FromCache _ _ _ | JustAnalyzed _ | Analyzing _ _ =>
      exists cs, get category (rawArticles st) = Some cs /\ CategoryState.articles cs <> []
  | _ => True
  end.
Proof.
  intros E. apply (f_equal fst) in E. cbn [fst] in E. revert E.
  unfold try_block, js_in.
  destruct (get category (rawArticles st)) as [cs|] eqn:Hget.
  - cbn [negb]. destruct (CategoryState.isLoading cs); [intros [= <-]; exact I|].
    destruct (stored_error cs); [intros [= <-]; exact I|].
    destruct (CategoryState.articles cs) as [|a rest] eqn:Harts; [intros [= <-]; exact I|].
    assert (Hcs : exists cs0, Some cs = Some cs0 /\ CategoryState.articles cs0 <> [])
      by (exists cs; split; [reflexivity | rewrite Harts; discriminate]).
    unfold serve. destruct (fresh_data _ _); [intros [= <-]; exact Hcs|].
    destruct (CacheEntry.isAnalyzing _); [intros [= <-]; exact Hcs|].
    destruct (fresh_analysis_cases w category cs st) as [(an & _ & ->)|(e & _ & ->)];
      cbn [fst]; [intros [= <-]; exact Hcs | discriminate].
  - destruct (existsb _ _); cbn [negb fst]; intros [= <-]; [exact I | reflexivity].
Qed.

(** X17: the summary endpoint answers 404 exactly when no article is
    retained under the lowercased name; it answers 404 whenever the
    articles endpoint rejects the name as no category, and it does not
    answer 404 when the articles endpoint answers 200 for the name in the
    same state. *)
Theorem summary_agrees_with_articles groq w param st :
  (llm_news_summary groq (rawArticles st) param = NoArticlesFound <->
   forall cs, get (toLowerCase param) (rawArticles st) = Some cs ->
              CategoryState.articles cs = []) /\
  (forall names,
      fst (handler w param st) = CategoryNotFound names ->
      llm_news_summary groq (rawArticles st) param = NoArticlesFound) /\
  (forall data from_cache,
      body (fst (handler w param st)) = Some (data, from_cache) ->
      summary_status (llm_news_summary groq (rawArticles st) param) <> 404).
Proof.
  split; [|split].
  - unfold llm_news_summary. cbv zeta.
    destruct (get (toLowerCase param) (rawArticles st)) as [cs|].
    + destruct (CategoryState.articles cs) as [|a rest] eqn:Harts.
      * split; [intros _ cs' [= <-]; exact Harts | reflexivity].
      * split.
        -- destruct (groq _ _); discriminate.
        -- intros H. specialize (H cs eq_refl). rewrite Harts in H. discriminate.
    + split; [intros _ cs; discriminate | reflexivity].
  - intros names. unfold handler. cbv zeta.
    destruct (try_block w (toLowerCase param) st) as [[r|e] st'] eqn:E; cbn [fst];
      [|discriminate].
    intros ->. apply try_block_answers in E. cbv beta iota in E.
    unfold llm_news_summary. cbv zeta. rewrite E. reflexivity.
  - intros data from_cache. unfold handler. cbv zeta.
    destruct (try_block w (toLowerCase param) st) as [[r|e] st'] eqn:E; cbn [fst];
      [|discriminate].
    intros Hbody. apply try_block_answers in E.
    assert (Hcs : exists cs, get (toLowerCase param) (rawArticles st) = Some cs /\
                             CategoryState.articles cs <> [])
      by (destruct r; try discriminate Hbody; exact E).
    destruct Hcs as (cs & Hget & Harts).
    unfold llm_news_summary. cbv zeta. rewrite Hget.
    destruct (CategoryState.articles cs) as [|a rest]; [contradiction|].
    destruct (groq _ _); discriminate.
Qed.
End SummaryEndpoint.

(** X18: the summary endpoint sees of a category only the titles and
    the first 200 UTF-16 code units of the contents of its first five
    articles: two stores that agree on these get the same answer. *)
Theorem summary_sees_headlines groq raw1 raw2 param cs1 cs2 :
  get (toLowerCase param) raw1 = Some cs1 ->
  get (toLowerCase param) raw2 = Some cs2 ->
  Forall2 same_headline (firstn 5 (CategoryState.articles cs1))
                        (firstn 5 (CategoryState.articles cs2)) ->
  llm_news_summary groq raw1 param = llm_news_summary groq raw2 param.
Proof.
  intros Hget1 Hget2 Hsame. unfold llm_news_summary. cbv zeta. rewrite Hget1, Hget2.
  assert (Hcontext : summary_context (CategoryState.articles cs1)
                     = summary_context (CategoryState.articles cs2))
    by (unfold summary_context, slice0; now rewrite (map_indexed_headlines 0 _ _ Hsame)).
  destruct (CategoryState.articles cs1) as [|a1 rest1];
    destruct (CategoryState.articles cs2) as [|a2 rest2].
  - reflexivity.
  - inversion Hsame.
  - inversion Hsame.
  - rewrite Hcontext. reflexivity.
Qed.

Lemma summary_agrees_with_articles_witness :
  body (fst (handler (B := scenario_builtins) (request_at 1000000 good_reply) "Technology"
               with_six_stories)) <> None /\
  summary_status (llm_news_summary (fun _ _ => Ok "Six launches.") (rawArticles with_six_stories)
                    "Technology") <> 404 /\
  llm_news_summary (fun _ _ => Ok "Six launches.") (rawArticles with_six_stories) "sports"
    = NoArticlesFound.
Proof.
  destruct (summary_agrees_with_articles (B := scenario_builtins)
              (fun _ _ => Ok "Six launches.") (request_at 1000000 good_reply) "Technology"
              with_six_stories) as (_ & _ & Hfound).
  destruct (summary_agrees_with_articles (B := scenario_builtins)
              (fun _ _ => Ok "Six launches.") (request_at 1000000 good_reply) "sports"
              with_six_stories) as (_ & Hmissing & _).
  destruct (body (fst (handler (B := scenario_builtins) (request_at 1000000 good_reply)
                         "Technology" with_six_stories))) as [[data from_cache]|] eqn:Hbody;
    [|vm_compute in Hbody; discriminate Hbody].
  split; [discriminate|]. split.
  - exact (Hfound data from_cache eq_refl).
  - eapply Hmissing. vm_compute. reflexivity.
Defined.

Lemma summary_sees_headlines_witness :
  llm_news_summary (fun context _ => Ok context) (rawArticles with_story) "technology"
  = llm_news_summary (fun context _ => Ok context)
      [("technology",
        CategoryState.Build
          [Article.Build "sports" "Launch" "Launch" "https://elsewhere" "Other" 1] true None)]
      "technology".
Proof.
  eapply (summary_sees_headlines (fun context _ => Ok context));
    [vm_compute; reflexivity | vm_compute; reflexivity |].
  repeat constructor.
Defined.

(** ** The serverless function *)

Lemma valid_category_iff c :
  existsb (String.eqb c) validCategories = true <-> In c validCategories.
Proof.
  rewrite existsb_exists. split.
  - intros (x & HIn & E). apply String.eqb_eq in E. now subst.
  - intros H. exists c. split; [exact H | apply String.eqb_refl].
Qed.

(** Every valid category has a feed. *)
Lemma feeds_of_valid c :
  In c validCategories ->
  filter (fun feed => String.eqb (Feed.category feed) c) RSS_FEEDS <> [].
Proof.
  intros H. simpl in H.
  repeat (destruct H as [<-|H]; [vm_compute; discriminate|]). contradiction.
Qed.

(** The articles gathered by the loop over the feeds: none exactly when
    there were none before and no feed brings one. *)
Lemma tryFeeds_nothing w feeds allArticles categorySuccess :
  fst (tryFeeds w feeds allArticles categorySuccess) = [] <->
  allArticles = [] /\ Forall (delivers_nothing w) feeds.
Proof.
  revert allArticles categorySuccess.
  induction feeds as [|feed feeds IH]; intros allArticles categorySuccess; cbn [tryFeeds].
  - cbn [fst]. split; [intros ->; split; [reflexivity | constructor] | now intros [-> _]].
  - unfold delivers_nothing at 1. destruct (processFeed w feed) as [newArticles|e] eqn:E.
    + rewrite IH. split.
      * intros [Happ Hrest]. apply app_eq_nil in Happ. destruct Happ as [-> ->].
        split; [reflexivity|]. constructor; [|exact Hrest].
        unfold delivers_nothing. rewrite E. now intros l [= <-].
      * intros [-> Hall]. inversion Hall as [|? ? Hfeed Hrest]; subst.
        unfold delivers_nothing in Hfeed. rewrite (Hfeed newArticles E).
        split; [reflexivity | exact Hrest].
    + rewrite IH. split.
      * intros [-> Hrest]. split; [reflexivity|]. constructor; [|exact Hrest].
        unfold delivers_nothing. rewrite E. discriminate.
      * intros [-> Hall]. inversion Hall; subst. split; [reflexivity | assumption].
Qed.

Lemma Array_sort_nil {A} (cmp : A -> A -> jsnum) l : Array_sort cmp l = [] <-> l = [].
Proof.
  split; [|intros ->; reflexivity].
  intros E. pose proof (Array_sort_perm cmp l) as Hperm. rewrite E in Hperm.
  now apply Permutation_nil in Hperm.
Qed.

Section ServerlessInGeneral.
Context {B : Builtins}.

Lemma uncut_buckets_Ok_form l r :
  uncut_buckets l = Ok r ->
  r = Buckets.Build (Array_sort descending (filter above l))
                    (Array_sort ascending (filter below l))
                    (filter within l).
Proof.
  unfold uncut_buckets. destruct (Array_filter is_positive l) as [pos|] eqn:E; [|discriminate].
  destruct (Array_filter_Ok is_positive l pos E) as [Hall _].
  assert (Hco : Forall (fun a => exists n, ToNumber (Analyzed.sentiment_score a) = Ok n) l).
  { eapply Forall_impl; [|exact Hall]. intros a [b Hb].
    destruct (ToNumber (Analyzed.sentiment_score a)) as [n|e] eqn:En; [eauto|].
    destruct (filters_of_uncoercible a e En) as [H _]. congruence. }
  rewrite (Array_filter_total is_positive above) in E
    by (eapply Forall_impl; [|exact Hco]; intros a [n En]; apply (filters_of_coercible a n En)).
  rewrite (Array_filter_total is_negative below)
    by (eapply Forall_impl; [|exact Hco]; intros a [n En]; apply (filters_of_coercible a n En)).
  rewrite (Array_filter_total is_neutral within)
    by (eapply Forall_impl; [|exact Hco]; intros a [n En]; apply (filters_of_coercible a n En)).
  injection E as <-. cbn [bind]. now intros [= <-].
Qed.

(** The outcomes of an invocation with method GET for a valid
    category, [recent] being the five most recent of the gathered
    articles. *)
Lemma news_handler_valid w event :
  httpMethod event = "GET" ->
  In (event_category event) validCategories ->
  exists feed feeds,
    filter (fun feed => String.eqb (Feed.category feed) (event_category event)) RSS_FEEDS
      = feed :: feeds /\
    forall recent,
      recent = slice0 5 (Array_sort newest_first
                           (fst (tryFeeds (news_feeds w) (feed :: feeds) [] false))) ->
      news_handler w event =
      match recent with
      | [] => NoArticlesAvailable (event_category event)
      | _ :: _ =>
          match uncut_buckets
                  (map (fun article => analyzeSentiment article (news_llm w article))
                       recent) with
          | Err e => NewsInternalError (message e) (event_category event)
          | Ok lists =>
              NewsResult
                (NewsBody.Build (event_category event)
                   (Summary.Build
                      (List.length recent)
                      (List.length
                         (map (fun article => analyzeSentiment article (news_llm w article))
                              recent))
                      (List.length (Buckets.positive lists))
                      (List.length (Buckets.negative lists))
                      (List.length (Buckets.neutral lists)))
                   lists
                   (news_clock w))
          end
      end.
Proof.
  intros Hget Hvalid. unfold news_handler. cbv zeta. fold (event_category event).
  rewrite Hget. rewrite String.eqb_refl. cbn [negb].
  rewrite (proj2 (valid_category_iff _) Hvalid). cbn [negb].
  pose proof (feeds_of_valid _ Hvalid) as Hfeeds.
  destruct (filter _ RSS_FEEDS) as [|feed feeds] eqn:Hfilter; [contradiction|].
  exists feed, feeds. split; [reflexivity|]. intros recent ->. reflexivity.
Qed.

Lemma news_handler_cases w event :
  (httpMethod event <> "GET" /\ news_handler w event = MethodNotAllowed) \/
  (httpMethod event = "GET" /\ ~ In (event_category event) validCategories /\
   news_handler w event = InvalidCategory validCategories) \/
  (httpMethod event = "GET" /\ In (event_category event) validCategories /\
   news_handler w event <> MethodNotAllowed /\
   news_handler w event <> InvalidCategory validCategories /\
   forall category, news_handler w event <> NoFeedsAvailable category).
Proof.
  destruct (String.eqb_spec (httpMethod event) "GET") as [Hget|Hother].
  - destruct (existsb (String.eqb (event_category event)) validCategories) eqn:Hvalid.
    + apply valid_category_iff in Hvalid. right. right.
      destruct (news_handler_valid w event Hget Hvalid) as (feed & feeds & _ & E).
      rewrite (E _ eq_refl). clear E.
      split; [exact Hget|]. split; [exact Hvalid|].
      destruct (slice0 5 _); [|destruct (uncut_buckets _)];
        repeat split; intros; discriminate.
    + right. left. split; [exact Hget|]. split.
      * intros HIn. apply valid_category_iff in HIn. congruence.
      * unfold news_handler. cbv zeta. fold (event_category event).
        rewrite Hget, String.eqb_refl, Hvalid. reflexivity.
  - left. split; [exact Hother|]. unfold news_handler.
    apply String.eqb_neq in Hother. rewrite Hother. reflexivity.
Qed.

(** X19: the serverless function answers 405 exactly for a method other
    than GET and, for GET, 400 exactly when the lowercased last segment of
    the path is none of the five categories; a name that every object
    inherits is answered 400 like any other unknown name; and the answer
    that a category has no feeds is never given. *)
Theorem news_validation w event :
  (news_handler w event = MethodNotAllowed <-> httpMethod event <> "GET") /\
  (news_handler w event = InvalidCategory validCategories <->
   httpMethod event = "GET" /\ ~ In (event_category event) validCategories) /\
  (httpMethod event = "GET" -> In (event_category event) Object_prototype ->
   news_handler w event = InvalidCategory validCategories) /\
  (forall category, news_handler w event <> NoFeedsAvailable category).
Proof.
  pose proof (news_handler_cases w event) as Hcases.
  split; [|split; [|split]].
  - destruct Hcases as [(Hm & ->)|[(Hm & _ & ->)|(Hm & _ & Hno & _)]].
    + split; auto.
    + split; [discriminate | intros; contradiction].
    + split; [intros; contradiction | intros; contradiction].
  - destruct Hcases as [(Hm & ->)|[(Hm & Hout & ->)|(Hm & HIn & _ & Hno & _)]].
    + split; [discriminate | intros [? _]; contradiction].
    + split; auto.
    + split; [intros; contradiction | intros [_ ?]; contradiction].
  - intros Hget Hinherited.
    destruct Hcases as [(Hm & _)|[(_ & _ & ->)|(_ & HIn & _)]];
      [contradiction | reflexivity |].
    exfalso. revert HIn Hinherited. generalize (event_category event) as c.
    intros c HIn Hinherited. simpl in HIn, Hinherited.
    repeat (destruct HIn as [<-|HIn]; [intuition discriminate|]). contradiction.
  - intros category. destruct Hcases as [(_ & ->)|[(_ & _ & ->)|(_ & _ & _ & _ & Hno)]];
      [discriminate | discriminate | apply Hno].
Qed.

(** X20: in a 200 answer of the serverless function the category is one
    of the five, between one and five articles are counted, all of them
    as analyzed, the three counts are the lengths of the three lists, and
    together they are at most the number of analyzed articles. *)
Theorem news_result_summary w event result :
  news_handler w event = NewsResult result ->
  In (NewsBody.category result) validCategories /\
  (1 <= Summary.total_articles (NewsBody.summary result) <= 5)%nat /\
  Summary.analyzed_articles (NewsBody.summary result)
    = Summary.total_articles (NewsBody.summary result) /\
  Summary.positive_count (NewsBody.summary result)
    = List.length (Buckets.positive (NewsBody.articles result)) /\
  Summary.negative_count (NewsBody.summary result)
    = List.length (Buckets.negative (NewsBody.articles result)) /\
  Summary.neutral_count (NewsBody.summary result)
    = List.length (Buckets.neutral (NewsBody.articles result)) /\
  (Summary.positive_count (NewsBody.summary result)
   + Summary.negative_count (NewsBody.summary result)
   + Summary.neutral_count (NewsBody.summary result)
   <= Summary.analyzed_articles (NewsBody.summary result))%nat.
Proof.
  intros Hresult.
  destruct (news_handler_cases w event) as [(_ & E)|[(_ & _ & E)|(Hget & Hvalid & _)]];
    [rewrite E in Hresult; discriminate | rewrite E in Hresult; discriminate |].
  destruct (news_handler_valid w event Hget Hvalid) as (feed & feeds & _ & E).
  rewrite (E _ eq_refl) in Hresult. clear E.
  destruct (slice0 5 _) as [|article rest] eqn:Hrecent; [discriminate|].
  destruct (uncut_buckets _) as [lists|e] eqn:Hlists; [|discriminate].
  assert (Hfive : (List.length (article :: rest) <= 5)%nat)
    by (rewrite <- Hrecent; apply firstn_le_length).
  assert (Hsum : (List.length (Buckets.positive lists) + List.length (Buckets.negative lists)
                  + List.length (Buckets.neutral lists) <= List.length (article :: rest))%nat).
  { rewrite (uncut_buckets_Ok_form _ _ Hlists).
    cbn [Buckets.positive Buckets.negative Buckets.neutral].
    rewrite (Permutation_length (Array_sort_perm descending _)).
    rewrite (Permutation_length (Array_sort_perm ascending _)).
    rewrite <- (length_map (fun article => analyzeSentiment article (news_llm w article))
                  (article :: rest)).
    apply (three_filters_le above below within);
      [exact (fun a => proj1 (tests_exclusive a)) | exact (fun a => proj2 (tests_exclusive a))]. }
  injection Hresult as <-.
  cbn [NewsBody.category NewsBody.summary NewsBody.articles Summary.total_articles
       Summary.analyzed_articles Summary.positive_count Summary.negative_count
       Summary.neutral_count].
  rewrite !length_map. cbn [List.length] in Hfive, Hsum |- *.
  split; [exact Hvalid|]. split; [lia|]. do 4 (split; [reflexivity|]). exact Hsum.
Qed.

(** X21: for GET and a valid category, the serverless function answers
    404 "no articles available" exactly when none of the category's feeds
    brings an article, be it that the feed fails or that it is empty. *)
Theorem news_no_articles_iff w event :
  httpMethod event = "GET" ->
  In (event_category event) validCategories ->
  (news_handler w event = NoArticlesAvailable (event_category event) <->
   forall feed,
     In feed RSS_FEEDS -> Feed.category feed = event_category event ->
     delivers_nothing (news_feeds w) feed).
Proof.
  intros Hget Hvalid.
  destruct (news_handler_valid w event Hget Hvalid) as (feed & feeds & Hfeeds & E).
  rewrite (E _ eq_refl). clear E. rewrite <- Hfeeds.
  assert (Hnothing :
            fst (tryFeeds (news_feeds w)
                   (filter (fun feed => String.eqb (Feed.category feed) (event_category event))
                           RSS_FEEDS) [] false) = [] <->
            forall feed,
              In feed RSS_FEEDS -> Feed.category feed = event_category event ->
              delivers_nothing (news_feeds w) feed).
  { rewrite tryFeeds_nothing, Forall_forall. split.
    - intros [_ H] f HIn Hcat. apply H, filter_In. split; [exact HIn|].
      now apply String.eqb_eq.
    - intros H. split; [reflexivity|]. intros f Hf. apply filter_In in Hf.
      destruct Hf as [HIn Hcat]. apply String.eqb_eq in Hcat. now apply H. }
  rewrite <- Hnothing.
  destruct (fst (tryFeeds _ _ [] false)) as [|a l] eqn:Hgathered.
  - split; reflexivity.
  - assert (Hsorted : Array_sort newest_first (a :: l) <> [])
      by (intros E; apply Array_sort_nil in E; discriminate).
    destruct (Array_sort newest_first (a :: l)) as [|b sorted]; [contradiction|].
    cbn [slice0 firstn].
    destruct (uncut_buckets _); split; discriminate.
Qed.
End ServerlessInGeneral.

Lemma news_validation_witness :
  news_handler (B := scenario_builtins) six_stories_world
    {| httpMethod := "GET"; path := "/.netlify/functions/news/constructor" |}
  = InvalidCategory validCategories.
Proof.
  apply (proj1 (proj2 (proj2 (news_validation (B := scenario_builtins) six_stories_world
                                {| httpMethod := "GET";
                                   path := "/.netlify/functions/news/constructor" |}))));
    [reflexivity | vm_compute; tauto].
Defined.

Lemma news_result_summary_witness :
  exists result,
    news_handler (B := scenario_builtins) six_stories_world tech_event = NewsResult result /\
    NewsBody.category result = "technology" /\
    Summary.total_articles (NewsBody.summary result) = 5%nat /\
    Summary.analyzed_articles (NewsBody.summary result)
      = Summary.total_articles (NewsBody.summary result).
Proof.
  eexists. split; [vm_compute; reflexivity|].
  split; [reflexivity|]. split; [reflexivity|].
  match goal with
  | |- Summary.analyzed_articles (NewsBody.summary ?r) = _ =>
      destruct (news_result_summary (B := scenario_builtins) six_stories_world tech_event r
                  ltac:(vm_compute; reflexivity)) as (_ & _ & Hall & _)
  end.
  exact Hall.
Defined.

Lemma news_no_articles_iff_witness :
  news_handler (B := scenario_builtins) silent_world tech_event
  = NoArticlesAvailable "technology".
Proof.
  apply (proj2 (news_no_articles_iff (B := scenario_builtins) silent_world tech_event
                  eq_refl ltac:(vm_compute; tauto))).
  intros feed HIn _ newArticles Hfeed. exfalso. simpl in HIn.
  repeat (destruct HIn as [<-|HIn]; [vm_compute in Hfeed; discriminate Hfeed|]).
  contradiction.
Defined.
